(** * atsuko: command-line interfaces out of functions

    A shallow embedding of [src/atsuko/cli.py]: the parameter descriptor
    ([CommandParameter]), the command descriptor ([Command]) and the
    application registry ([CLI]), followed by the properties of the
    design that are checked against that code.

    Python objects are embedded as follows.
    - [str] is [string]; a character is an [ascii].
    - a value that can be a default, a parsed argument or a result is a
      [value]; its class is a [pytype].
    - a [dict] with string keys that is only read by key (the parsed
      namespace, the keyword arguments of a call) is a [gmap string _];
      the registry's [commands] dict, which is iterated in insertion
      order, is an association list with unique keys.
    - raising is the [Raise] constructor of [result]; printing and
      calling the wrapped function are recorded in a trace of [event]s. *)

From Stdlib Require Import ZArith Lia Ascii String.
From stdpp Require Import base option list strings gmap.

Set Warnings "-register-all".
Local Open Scope string_scope.
Local Open Scope list_scope.

(** ** Strings *)

Definition newline : ascii := Ascii.ascii_of_nat 10.

(** [s.split(sep)] for a one-character separator: never empty. *)
Fixpoint str_split (sep : ascii) (s : string) : list string :=
  match s with
  | EmptyString => [EmptyString]
  | String c s' =>
      if Ascii.eqb c sep then EmptyString :: str_split sep s'
      else match str_split sep s' with
           | l :: ls => String c l :: ls
           | [] => [String c EmptyString]
           end
  end.

(** [sep.join(parts)]. *)
Fixpoint str_join (sep : string) (parts : list string) : string :=
  match parts with
  | [] => EmptyString
  | [l] => l
  | l :: ls => l +:+ sep +:+ str_join sep ls
  end.

(** [s.replace(a, b)] for one-character [a] and [b]. *)
Fixpoint str_replace (a b : ascii) (s : string) : string :=
  match s with
  | EmptyString => EmptyString
  | String c s' => String (if Ascii.eqb c a then b else c) (str_replace a b s')
  end.

(** [c in s]. *)
Fixpoint str_contains (c : ascii) (s : string) : bool :=
  match s with
  | EmptyString => false
  | String d s' => Ascii.eqb d c || str_contains c s'
  end.

Definition NL : string := String newline EmptyString.

(** [c.isspace()] for a character below 256: the ASCII white space
    (tab to carriage return, the four separators and the space), the
    next-line control and the no-break space. *)
Definition is_space (c : ascii) : bool :=
  let n := nat_of_ascii c in
  (((9 <=? n) && (n <=? 13)) || ((28 <=? n) && (n <=? 32))
   || (n =? 133) || (n =? 160))%nat.

(** [s.lstrip()], [s.rstrip()] and [s.strip()]. *)
Fixpoint str_lstrip (s : string) : string :=
  match s with
  | EmptyString => EmptyString
  | String c s' => if is_space c then str_lstrip s' else s
  end.

Fixpoint str_rstrip (s : string) : string :=
  match s with
  | EmptyString => EmptyString
  | String c s' =>
      match str_rstrip s' with
      | EmptyString => if is_space c then EmptyString else String c EmptyString
      | r => String c r
      end
  end.

Definition str_strip (s : string) : string := str_rstrip (str_lstrip s).

(** ** Classes and values *)

(** The classes the code compares a parameter type with, and any other
    class by its qualified name. [T_VarArgs] is the module's private
    [_VarArgs] subclass of [list]. *)
Inductive pytype : Type :=
  | Tstr
  | Tint
  | Tfloat
  | Tbool
  | T_VarArgs
  | Tclass (qualname : string).

Definition is_VarArgs (t : pytype) : bool :=
  match t with T_VarArgs => true | _ => false end.

Definition is_bool (t : pytype) : bool :=
  match t with Tbool => true | _ => false end.

(** [str(t)] for a class [t]. *)
Definition class_name (t : pytype) : string :=
  match t with
  | Tstr => "str"
  | Tint => "int"
  | Tfloat => "float"
  | Tbool => "bool"
  | T_VarArgs => "atsuko.cli._VarArgs"
  | Tclass q => q
  end.

Definition str_of_type (t : pytype) : string :=
  "<class '" +:+ class_name t +:+ "'>".

(** Values. A float is its IEEE 754 binary64 bit pattern; an object of
    another class is opaque and carries only its class and its truth
    value. *)
Inductive value : Type :=
  | VNone
  | VBool (b : bool)
  | VInt (n : Z)
  | VFloat (bits : Z)
  | VStr (s : string)
  | VList (l : list value)
  | V_VarArgs (l : list value)
  | VObject (cls : string) (truth : bool).

(** [type(v)]. *)
Definition type_of (v : value) : pytype :=
  match v with
  | VNone => Tclass "NoneType"
  | VBool _ => Tbool
  | VInt _ => Tint
  | VFloat _ => Tfloat
  | VStr _ => Tstr
  | VList _ => Tclass "list"
  | V_VarArgs _ => T_VarArgs
  | VObject cls _ => Tclass cls
  end.

(** [bool(v)]. *)
Definition truthy (v : value) : bool :=
  match v with
  | VNone => false
  | VBool b => b
  | VInt n => negb (n =? 0)%Z
  | VFloat bits => negb (Z.land bits (2 ^ 63 - 1) =? 0)%Z
  | VStr s => negb (String.eqb s "")
  | VList l | V_VarArgs l => match l with [] => false | _ => true end
  | VObject _ t => t
  end.

(** [v != None]. *)
Definition is_not_None (v : value) : bool :=
  match v with VNone => false | _ => true end.

(** ** Exceptions *)

Inductive exn : Type :=
  | TypeError (msg : string)
  | KeyError (key : string)
  | AttributeError (msg : string)
  | SystemExit (code : Z)
  | Exception (cls msg : string).

Inductive result (A : Type) : Type :=
  | Ok (a : A)
  | Raise (e : exn).
Arguments Ok {A} a.
Arguments Raise {A} e.

Definition bind {A B} (r : result A) (k : A → result B) : result B :=
  match r with
  | Ok a => k a
  | Raise e => Raise e
  end.

Declare Scope py_scope.
Delimit Scope py_scope with py.
Notation "'let*' x ':=' r 'in' k" := (bind r (fun x => k))
  (at level 10, x pattern, r at level 100, k at level 200) : py_scope.
Local Open Scope py_scope.

(** The elements [args += v] appends: [list.__iadd__] iterates its
    operand, and raises [TypeError] when it is not iterable. A string
    yields its characters; an opaque object has no elements to give. *)
Definition iter (v : value) : result (list value) :=
  match v with
  | VList l | V_VarArgs l => Ok l
  | VStr s => Ok ((λ c, VStr (String c EmptyString)) <$> list_ascii_of_string s)
  | _ => Raise (TypeError ("'" +:+ class_name (type_of v) +:+ "' object is not iterable"))
  end.

(** [params[name]] on a dict. *)
Definition getitem {A} (params : gmap string A) (name : string) : result A :=
  match params !! name with
  | Some v => Ok v
  | None => Raise (KeyError name)
  end.

(** ** [inspect.Parameter]: what introspection reports for one formal
    parameter of the wrapped function *)

Inductive kind : Type :=
| POSITIONAL_ONLY
| POSITIONAL_OR_KEYWORD
| VAR_POSITIONAL
| KEYWORD_ONLY
| VAR_KEYWORD.

(** ** [ParameterAnnotation] *)

Module ParameterAnnotation.
Record t : Type := mk {
  name : string;
  type : pytype;
  description : string;
  choices : option (list value)
}.
End ParameterAnnotation.

(** The annotation slot of a formal parameter: [inspect._empty], a
  [ParameterAnnotation] instance, a class (an instance of [type]
  other than [inspect._empty]), or any other object (a string, a
  [typing] construct), of which only a printed form is kept. *)
Inductive annotation : Type :=
| AnnEmpty
| AnnParam (a : ParameterAnnotation.t)
| AnnType (t : pytype)
| AnnOther (repr : string).

Module InspectParameter.
(** [default] is [None] for [inspect._empty]. *)
Record t : Type := mk {
  name : string;
  kind : kind;
  default : option value;
  annotation : annotation
}.
End InspectParameter.

(** ** [CommandParameter] *)

Module CommandParameter.

Record t : Type := mk {
  name : string;
  pretty_name : string;
  type : pytype;
  description : string;
  choices : option (list value);
  required : bool;
  default : value
}.

(** [type_name], read while [self.type] still holds the type [ty]
    chosen by the annotation handling. *)
Definition type_name (ty : pytype) : string :=
  match ty with
  | Tstr => "Text"
  | Tint | Tfloat => "Number"
  | Tbool => "Boolean"
  | T_VarArgs => "ListOfArguments"
  | Tclass _ => str_of_type ty
  end.

Definition synthesized (name : string) (ty : pytype) : string :=
  "Parameter '" +:+ name +:+ "' of " +:+ type_name ty.

(** [CommandParameter.__init__]. *)
Definition __init__ (param_info : InspectParameter.t) : result t :=
  let name := InspectParameter.name param_info in
  match InspectParameter.kind param_info with
  | VAR_KEYWORD =>
      Raise (TypeError "Variable number of optional arguments not supported")
  | k =>
      let '(pretty_name, type, description, choices) :=
        match InspectParameter.annotation param_info with
        | AnnParam a =>
            (ParameterAnnotation.name a, ParameterAnnotation.type a,
             ParameterAnnotation.description a, ParameterAnnotation.choices a)
        | AnnType ty => (name, ty, synthesized name ty, None)
        | AnnEmpty | AnnOther _ =>
            match InspectParameter.default param_info with
            | Some d =>
                if is_not_None d
                then (name, type_of d, synthesized name (type_of d), None)
                else (name, Tstr, synthesized name Tstr, None)
            | None => (name, Tstr, synthesized name Tstr, None)
            end
        end in
      let '(required, default) :=
        match InspectParameter.default param_info with
        | None => (true, VNone)
        | Some d => (false, d)
        end in
      match k with
      | VAR_POSITIONAL =>
          Ok (mk name pretty_name T_VarArgs description choices false (VList []))
      | _ =>
          Ok (mk name pretty_name type description choices required default)
      end
  end.

End CommandParameter.

(** ** Effects: the trace of what a run prints and calls *)

Inductive event : Type :=
  | print_help
  | print (message : string)
  | call (command : string) (args : list value) (kwargs : gmap string value).

(** A computation that may raise and that appends to the trace. *)
Definition M (A : Type) : Type := list event → result A * list event.

Definition ret {A} (a : A) : M A := λ tr, (Ok a, tr).

Definition emit (ev : event) : M unit := λ tr, (Ok tt, (tr ++ [ev])%list).

Definition lift {A} (r : result A) : M A := λ tr, (r, tr).

Definition bindM {A B} (m : M A) (k : A → M B) : M B :=
  λ tr, match m tr with
        | (Ok a, tr') => k a tr'
        | (Raise e, tr') => (Raise e, tr')
        end.

Notation "'do*' x ':=' m 'in' k" := (bindM m (fun x => k))
  (at level 10, x pattern, m at level 100, k at level 200) : py_scope.

(** [for x in xs: body(x)] collecting the results, left to right. *)
Fixpoint for_each {A B} (body : A → result B) (xs : list A) : result (list B) :=
  match xs with
  | [] => Ok []
  | x :: xs' =>
      let* y := body x in
      let* ys := for_each body xs' in
      Ok (y :: ys)
  end.

(** ** The wrapped function *)

Module Function.
(** What the code reads of a function object: [__name__], the result of
    [inspect.getdoc], the parameters of [inspect.signature] in
    declaration order, and what calling it returns or raises. *)
Record t : Type := mk {
  __name__ : string;
  getdoc : option string;
  signature : list InspectParameter.t;
  body : list value → gmap string value → result value
}.
End Function.

(** ** [Command] *)

Module Command.

Record t : Type := mk {
  name : string;
  func : Function.t
}.

(** [Command._docstring]. [str.split] never returns an empty list, so
    the last branch is not taken. *)
Definition _docstring (self : t) : string * string :=
  let docstring :=
    match Function.getdoc (func self) with
    | Some doc => if String.eqb doc "" then name self else doc
    | None => name self
    end in
  let lines := str_split newline docstring in
  match lines with
  | [_] => (docstring, "")
  | l0 :: l1 :: rest =>
      if String.eqb l1 "" then (l0, str_join NL rest)
      else ("Command " +:+ name self, docstring)
  | [] => (docstring, "")
  end.

Definition description (self : t) : string := fst (_docstring self).

Definition documentation (self : t) : string := snd (_docstring self).

(** [Command.parameters]: the dict comprehension over the signature.
    Parameter names are unique in a signature, so the dict is the list
    of descriptors in declaration order, each carrying its name. *)
Definition parameters (self : t) : result (list CommandParameter.t) :=
  for_each CommandParameter.__init__ (Function.signature (func self)).

(** [[params[name] for name, param in ... if param.required]]. *)
Fixpoint required_args (params : gmap string value)
    (ps : list CommandParameter.t) : result (list value) :=
  match ps with
  | [] => Ok []
  | p :: ps' =>
      if CommandParameter.required p then
        let* v := getitem params (CommandParameter.name p) in
        let* vs := required_args params ps' in
        Ok (v :: vs)
      else required_args params ps'
  end.

(** [{name: params[name] for name, param in ... if not param.required
    and param.type != _VarArgs}], filling [kwargs] left to right. *)
Fixpoint optional_kwargs (params : gmap string value)
    (ps : list CommandParameter.t) (kwargs : gmap string value)
    : result (gmap string value) :=
  match ps with
  | [] => Ok kwargs
  | p :: ps' =>
      if negb (CommandParameter.required p)
         && negb (is_VarArgs (CommandParameter.type p)) then
        let* v := getitem params (CommandParameter.name p) in
        optional_kwargs params ps' (<[CommandParameter.name p := v]> kwargs)
      else optional_kwargs params ps' kwargs
  end.

(** [for name, param in ...: if param.type == _VarArgs: args += params[name]]. *)
Fixpoint extend_varargs (params : gmap string value)
    (ps : list CommandParameter.t) (args : list value) : result (list value) :=
  match ps with
  | [] => Ok args
  | p :: ps' =>
      if is_VarArgs (CommandParameter.type p) then
        let* v := getitem params (CommandParameter.name p) in
        let* xs := iter v in
        extend_varargs params ps' (args ++ xs)%list
      else extend_varargs params ps' args
  end.

(** [Command.split_parameters]. *)
Definition split_parameters (self : t) (params : gmap string value)
    : result (list value * gmap string value) :=
  let* ps := parameters self in
  let* args := required_args params ps in
  let* kwargs := optional_kwargs params ps ∅ in
  let* args := extend_varargs params ps args in
  Ok (args, kwargs).

(** [Command.__call__]: the wrapped function is called with [args]
    unpacked as positional and [kwargs] as keyword arguments. *)
Definition __call__ (self : t) (args : list value)
    (kwargs : gmap string value) : M value :=
  do* _ := emit (call (name self) args kwargs) in
  lift (Function.body (func self) args kwargs).

End Command.

(** ** The vocabulary of the external parser ([argparse]) *)

Module argparse.

Inductive action : Type :=
  | store
  | store_true
  | store_false.

(** One [add_argument] call: its name or flags and the keyword
    arguments the code passes. A field is [None] when the call leaves
    it out or passes [None], which [argparse] treats alike. *)
Record argument : Type := mk_argument {
  flags : list string;
  arg_type : option pytype;
  arg_help : string;
  arg_nargs : option string;
  arg_required : option bool;
  arg_default : option value;
  arg_choices : option (list value);
  arg_action : action
}.

(** One [add_parser] call with the arguments added to it. *)
Record subparser : Type := mk_subparser {
  sub_name : string;
  sub_help : string;
  sub_description : string;
  sub_arguments : list argument
}.

Record parser : Type := mk_parser {
  prog : string;
  description : string;
  arguments : list argument;
  subparsers : list subparser
}.

(** The documented meaning of the two switches: the value stored when
    the flag is given on the command line, and when it is not. *)
Definition when_present (a : action) : option bool :=
  match a with
  | store_true => Some true
  | store_false => Some false
  | store => None
  end.

Definition when_absent (a : action) : option bool :=
  match a with
  | store_true => Some false
  | store_false => Some true
  | store => None
  end.

End argparse.

(** ** Insertion-ordered dicts with string keys *)

Fixpoint dict_get {A} (k : string) (d : list (string * A)) : option A :=
  match d with
  | [] => None
  | (k', v) :: d' => if String.eqb k' k then Some v else dict_get k d'
  end.

(** [d[k] = v]: an existing key keeps its place. *)
Fixpoint dict_set {A} (k : string) (v : A) (d : list (string * A))
    : list (string * A) :=
  match d with
  | [] => [(k, v)]
  | (k', v') :: d' =>
      if String.eqb k' k then (k, v) :: d' else (k', v') :: dict_set k v d'
  end.

(** ** [CLI] *)

Module CLI.

(** The attributes [__init__] sets. *)
Record t : Type := mk {
  name : string;
  description : string;
  version : string;
  commands : list (string * Command.t)
}.

(** [CLI.__init__]: every non-empty line of the description is stripped
    and the lines are joined again; [version] is [None] when the caller
    leaves it out. *)
Definition __init__ (name description : string) (version : option string) : t :=
  mk name
     (str_join NL
        (str_strip <$> filter (λ line, line ≠ "")
                         (str_split newline description)))
     (default "1.0.0" version)
     [].

(** What an attribute access on a [CLI] instance finds: the instance
    attributes that [__init__] sets and the methods that the class
    defines (the names every object inherits are left out). The class
    defines no [__getattr__], so any other name raises. *)
Inductive attribute : Type :=
  | attr_str (s : string)
  | attr_commands (d : list (string * Command.t))
  | attr_method (m : string).

Definition getattr (self : t) (attr : string) : result attribute :=
  if String.eqb attr "name" then Ok (attr_str (name self))
  else if String.eqb attr "description" then Ok (attr_str (description self))
  else if String.eqb attr "version" then Ok (attr_str (version self))
  else if String.eqb attr "commands" then Ok (attr_commands (commands self))
  else if bool_decide (attr ∈ ["__init__"; "log"; "command"; "parse"; "run"])
  then Ok (attr_method attr)
  else Raise (AttributeError
                ("'CLI' object has no attribute '" +:+ attr +:+ "'")).

(** [CLI.log]. *)
Definition log (self : t) (message : string) : M unit :=
  emit (print message).

(** [CLI.command]: returns the registry after the store and the
    command read back from it. *)
Definition command (self : t) (func : Function.t) : result (t * Command.t) :=
  let name' := str_replace "_" "-" (Function.__name__ func) in
  let commands' := dict_set name' (Command.mk name' func) (commands self) in
  match dict_get name' commands' with
  | Some c => Ok (mk (name self) (description self) (version self) commands', c)
  | None => Raise (KeyError name')
  end.

(** The [add_argument] call [CLI.parse] makes for one parameter. *)
Definition add_argument (param : CommandParameter.t) : argparse.argument :=
  if is_VarArgs (CommandParameter.type param) then
    argparse.mk_argument
      [CommandParameter.name param] None (CommandParameter.description param)
      (Some "*") None None None argparse.store
  else if CommandParameter.required param then
    argparse.mk_argument
      [CommandParameter.name param] (Some (CommandParameter.type param))
      (CommandParameter.description param) None None None
      (CommandParameter.choices param) argparse.store
  else if is_bool (CommandParameter.type param) then
    argparse.mk_argument
      ["--" +:+ CommandParameter.name param] None
      (CommandParameter.description param) None (Some false) None None
      (if truthy (CommandParameter.default param)
       then argparse.store_false else argparse.store_true)
  else
    argparse.mk_argument
      ["--" +:+ CommandParameter.name param] (Some (CommandParameter.type param))
      (CommandParameter.description param) None (Some false)
      (Some (CommandParameter.default param))
      (CommandParameter.choices param) argparse.store.

(** The sub-parser [CLI.parse] creates for one command. *)
Definition add_parser (command : Command.t) : result argparse.subparser :=
  let sub_name := Command.name command in
  let sub_help := Command.description command in
  let sub_description := Command.documentation command in
  let* params := Command.parameters command in
  Ok (argparse.mk_subparser sub_name sub_help sub_description
        (add_argument <$> params)).

(** The parser [CLI.parse] builds before it parses. *)
Definition build_parser (self : t) : result argparse.parser :=
  let version_flag :=
    argparse.mk_argument ["-v"; "--version"] None "show the program version"
      None None None None argparse.store_true in
  let* subs := for_each add_parser (snd <$> commands self) in
  Ok (argparse.mk_parser (name self) (description self) [version_flag] subs).

Section WithParser.

(** [parser.parse_args]: the external collaborator, given the parser
    that the code has described to it. It returns the namespace as a
    dict, or raises: [SystemExit] on a usage error or after printing
    help, or whatever [argparse] raises on a description it refuses. *)
Variable parse_args :
  argparse.parser → list string → result (gmap string value).

(** [CLI.parse]. *)
Definition parse (self : t) (args : list string) : result (gmap string value) :=
  let* parser := build_parser self in
  parse_args parser args.

(** [argns.version]. *)
Definition namespace_version (argns : gmap string value) : result value :=
  match argns !! "version" with
  | Some v => Ok v
  | None =>
      Raise (AttributeError "'Namespace' object has no attribute 'version'")
  end.

(** [CLI.run]. No path of the method returns a value: a run that does
    not raise returns [None]. *)
Definition run (self : t) (args : list string) : M value :=
  match args with
  | [] =>
      do* _ := lift (getattr self "parser") in
      do* _ := emit print_help in
      ret VNone
  | arg0 :: _ =>
      do* argns := lift (parse self args) in
      match dict_get arg0 (commands self) with
      | None =>
          do* v := lift (namespace_version argns) in
          do* _ := (if truthy v then log self (version self) else ret tt) in
          ret VNone
      | Some command =>
          do* (args', kwargs) := lift (Command.split_parameters command argns) in
          do* _ := Command.__call__ command args' kwargs in
          ret VNone
      end
  end.

End WithParser.

End CLI.

(** ** Sample functions, namespaces and registries *)

Definition plain (name : string) : InspectParameter.t :=
  InspectParameter.mk name POSITIONAL_OR_KEYWORD None AnnEmpty.

Definition with_default (name : string) (d : value) : InspectParameter.t :=
  InspectParameter.mk name POSITIONAL_OR_KEYWORD (Some d) AnnEmpty.

Definition star (name : string) : InspectParameter.t :=
  InspectParameter.mk name VAR_POSITIONAL None AnnEmpty.

Definition double_star (name : string) : InspectParameter.t :=
  InspectParameter.mk name VAR_KEYWORD None AnnEmpty.

(** A function that does nothing and returns [None]. *)
Definition def (name : string) (doc : option string)
    (sig : list InspectParameter.t) : Function.t :=
  Function.mk name doc sig (λ _ _, Ok VNone).

(** [def f(a, b, c=5, *rest)]. *)
Definition f_abc_rest : Function.t :=
  def "f" None [plain "a"; plain "b"; with_default "c" (VInt 5); star "rest"].

Definition mapping_abc_rest : gmap string value :=
  <["a" := VInt 1]> (<["b" := VInt 2]> (<["c" := VInt 7]>
    (<["rest" := VList [VInt 9; VInt 10]]> ∅))).

(** A registry with no command yet. *)
Definition empty_cli : CLI.t := CLI.mk "app" "An application" "1.0.0" [].

(** [def echo(msg, cap=False)] with the two-paragraph help text of the
    module's documentation. *)
Definition echo_doc : string :=
  "Echo command help message" +:+ NL +:+ NL
  +:+ "Detailed echo command help message".

Definition echo : Function.t :=
  def "echo" (Some echo_doc) [plain "msg"; with_default "cap" (VBool false)].

(** [def f(): ""] : a function whose help text is the empty string. *)
Definition f_empty_doc : Function.t := def "f" (Some "") [].

(** ** The reconstruction in the words of the design *)

Global Instance pytype_eq_dec : EqDecision pytype.
Proof. solve_decision. Defined.

Global Instance value_inhabited : Inhabited value := populate VNone.

(** The elements of a sequence value. *)
Definition elements (v : value) : list value :=
  match iter v with
  | Ok l => l
  | Raise _ => []
  end.

Definition is_required (p : CommandParameter.t) : Prop :=
  CommandParameter.required p = true.

Definition is_variadic (p : CommandParameter.t) : Prop :=
  CommandParameter.type p = T_VarArgs.

Definition is_keyword (p : CommandParameter.t) : Prop :=
  CommandParameter.required p = false ∧ CommandParameter.type p ≠ T_VarArgs.

Global Instance is_required_dec p : Decision (is_required p).
Proof. unfold is_required. apply _. Defined.

Global Instance is_variadic_dec p : Decision (is_variadic p).
Proof. unfold is_variadic. apply _. Defined.

Global Instance is_keyword_dec p : Decision (is_keyword p).
Proof. unfold is_keyword. apply _. Defined.

(** The values of the required parameters in declaration order, then
    the elements of the sequence of each variadic parameter. *)
Definition positional_of (params : gmap string value)
    (ps : list CommandParameter.t) : list value :=
  ((λ p, params !!! CommandParameter.name p) <$> filter is_required ps)
  ++ mjoin ((λ p, elements (params !!! CommandParameter.name p))
              <$> filter is_variadic ps).

(** The names of the parameters passed by keyword. *)
Definition keyword_names (ps : list CommandParameter.t) : list string :=
  CommandParameter.name <$> filter is_keyword ps.

(** A value that [+=] can append to a list. *)
Definition is_sequence (v : value) : Prop := ∃ l, iter v = Ok l.

(** The descriptors of [f(a, b, c=5, *rest)]. *)
Definition ps_abc_rest : list CommandParameter.t :=
  [ CommandParameter.mk "a" "a" Tstr "Parameter 'a' of Text" None true VNone;
    CommandParameter.mk "b" "b" Tstr "Parameter 'b' of Text" None true VNone;
    CommandParameter.mk "c" "c" Tint "Parameter 'c' of Number" None false
      (VInt 5);
    CommandParameter.mk "rest" "rest" T_VarArgs "Parameter 'rest' of Text"
      None false (VList []) ].

(** Two mappings with the same entry, or none, for each parameter. *)
Definition agree_on (params1 params2 : gmap string value)
    (ps : list CommandParameter.t) : Prop :=
  ∀ p, p ∈ ps →
       params1 !! CommandParameter.name p = params2 !! CommandParameter.name p.

(** The descriptors of [cap=False] and of [color=True]. *)
Definition cap_param : CommandParameter.t :=
  CommandParameter.mk "cap" "cap" Tbool "Parameter 'cap' of Boolean" None
    false (VBool false).

Definition color_param : CommandParameter.t :=
  CommandParameter.mk "color" "color" Tbool "Parameter 'color' of Boolean"
    None false (VBool true).

(** [x: int = "hello"]: a bare type marker and a default of another
    type. *)
Definition x_int_hello : InspectParameter.t :=
  InspectParameter.mk "x" POSITIONAL_OR_KEYWORD (Some (VStr "hello"))
    (AnnType Tint).

(** [count=3]: no annotation, a default. *)
Definition count_3 : InspectParameter.t := with_default "count" (VInt 3).

(** A formal parameter without annotation object or bare type marker. *)
Definition unannotated (info : InspectParameter.t) : Prop :=
  match InspectParameter.annotation info with
  | AnnEmpty | AnnOther _ => True
  | AnnParam _ | AnnType _ => False
  end.

(** The type left by the annotation handling, when the parameter is not
    variadic-positional. *)
Definition overridden (k : kind) (ty : pytype) : pytype :=
  match k with
  | VAR_POSITIONAL => T_VarArgs
  | _ => ty
  end.

(** [def g(x: _VarArgs = [], *rest)]: an ordinary parameter annotated
    with the module's private marker class, before the variadic one. *)
Definition x_marked : InspectParameter.t :=
  InspectParameter.mk "x" POSITIONAL_OR_KEYWORD (Some (VList []))
    (AnnType T_VarArgs).

Definition g_marked_rest : Function.t := def "g" None [x_marked; star "rest"].

(** [def h(a, *rest: Param("Rest", int, "the rest"))]: an explicit
    annotation on the variadic parameter. *)
Definition rest_annotated : InspectParameter.t :=
  InspectParameter.mk "rest" VAR_POSITIONAL None
    (AnnParam (ParameterAnnotation.mk "Rest" Tint "the rest" None)).

Definition h_a_rest : Function.t := def "h" None [plain "a"; rest_annotated].

(** A formal parameter whose annotation handling yields the private
    marker class: by its annotation object, by its bare type marker, or
    by a default that is an instance of it. *)
Definition declares_VarArgs (info : InspectParameter.t) : Prop :=
  match InspectParameter.annotation info with
  | AnnParam a => ParameterAnnotation.type a = T_VarArgs
  | AnnType ty => ty = T_VarArgs
  | AnnEmpty | AnnOther _ =>
      match InspectParameter.default info with
      | Some d => type_of d = T_VarArgs
      | None => False
      end
  end.

(** A formal parameter that is not variadic. *)
Definition ordinary (info : InspectParameter.t) : Prop :=
  InspectParameter.kind info ≠ VAR_POSITIONAL
  ∧ InspectParameter.kind info ≠ VAR_KEYWORD.

(** [def do_it(a, **options)]. *)
Definition do_it : Function.t :=
  def "do_it" None [plain "a"; double_star "options"].

(** The registry that holds only [do_it]. *)
Definition cli_do_it : CLI.t :=
  CLI.mk "app" "An application" "1.0.0"
    [("do-it", Command.mk "do-it" do_it)].

(** [def answer(): return 42]. *)
Definition answer : Function.t :=
  Function.mk "answer" None [] (λ _ _, Ok (VInt 42)).

(** The registry that holds only [answer]. *)
Definition cli_answer : CLI.t :=
  CLI.mk "app" "An application" "1.0.0"
    [("answer", Command.mk "answer" answer)].

(** The registry that holds only [f(a, b, c=5, *rest)]. *)
Definition cli_f : CLI.t :=
  CLI.mk "app" "An application" "1.0.0" [("f", Command.mk "f" f_abc_rest)].

(** A parser that answers every token list with the namespace [ns]. *)
Definition answering (ns : gmap string value)
    : argparse.parser → list string → result (gmap string value) :=
  λ _ _, Ok ns.

(** The message of the configuration error. *)
Definition not_supported : string :=
  "Variable number of optional arguments not supported".

(** The events of a trace that call a command. *)
Definition is_call (ev : event) : Prop :=
  match ev with
  | call _ _ _ => True
  | _ => False
  end.

(** ** Further vocabulary *)

(** A string that begins, or ends, with white space. *)
Definition starts_with_space (s : string) : bool :=
  match s with
  | EmptyString => false
  | String c _ => is_space c
  end.

Fixpoint ends_with_space (s : string) : bool :=
  match s with
  | EmptyString => false
  | String c EmptyString => is_space c
  | String _ s' => ends_with_space s'
  end.

(** A description as an author may write it in a triple-quoted string:
    indented lines, an empty line, and a line of three spaces. *)
Definition raw_description : string :=
  "  A small tool  " +:+ NL +:+ NL +:+ "   " +:+ NL +:+ " for demos".

(** A description that is already laid out. *)
Definition tidy_description : string :=
  "A small tool" +:+ NL +:+ "for demos".

(** [prec: Param("Precision", int, "Result decimal precision") = 2], as
    in the documentation of [ParameterAnnotation]. *)
Definition prec_annotated : InspectParameter.t :=
  InspectParameter.mk "prec" POSITIONAL_OR_KEYWORD (Some (VInt 2))
    (AnnParam (ParameterAnnotation.mk "Precision" Tint
                 "Result decimal precision" None)).

(** [target=None]. *)
Definition target_none : InspectParameter.t := with_default "target" VNone.

(** A parsed result that lacks the entry of [c]. *)
Definition mapping_ab_rest : gmap string value := delete "c" mapping_abc_rest.

(** [def plain_help(): ...] with a two-line help text that has no blank
    line after the first. *)
Definition two_lines : string := "Copies files" +:+ NL +:+ "and links.".

Definition plain_help : Function.t := def "copy" (Some two_lines) [].

(** [def answer(): return 43]: a second function of the same name. *)
Definition answer_43 : Function.t :=
  Function.mk "answer" None [] (λ _ _, Ok (VInt 43)).

(** The invariant of the [commands] dict of a registry that is filled
    by [CLI.command] only: a key occurs once, it is the name of the
    command stored under it, and it holds no underscore. *)
Definition registered (commands : list (string * Command.t)) : Prop :=
  NoDup (fst <$> commands)
  ∧ ∀ k c, (k, c) ∈ commands →
           Command.name c = k ∧ str_contains "_" k = false.

(** [*values: Param("Values", int, "numbers", choices=[1, 2])]. *)
Definition values_annotated : InspectParameter.t :=
  InspectParameter.mk "values" VAR_POSITIONAL None
    (AnnParam (ParameterAnnotation.mk "Values" Tint "numbers"
                 (Some [VInt 1; VInt 2]))).

(** ** Properties *)

(** *** Splitting and joining lines *)

Lemma str_split_cons (sep : ascii) (s : string) :
  ∃ l ls, str_split sep s = l :: ls.
Proof.
  destruct s as [|c s]; simpl; [by eauto|].
  destruct (Ascii.eqb c sep); [by eauto|].
  destruct (str_split sep s); eauto.
Qed.

Lemma str_split_no_sep (sep : ascii) (s : string) :
  str_contains sep s = false → str_split sep s = [s].
Proof.
  induction s as [|c s IH]; simpl; [done|].
  intros [Hc Hs]%orb_false_elim. rewrite Hc, (IH Hs). done.
Qed.

Lemma str_split_app (sep : ascii) (first rest : string) :
  str_contains sep first = false →
  str_split sep (first +:+ String sep rest) = first :: str_split sep rest.
Proof.
  induction first as [|c s IH]; simpl.
  - intros _. by rewrite Ascii.eqb_refl.
  - intros [Hc Hs]%orb_false_elim. rewrite Hc, (IH Hs). done.
Qed.

Lemma str_join_split (sep : ascii) (s : string) :
  str_join (String sep EmptyString) (str_split sep s) = s.
Proof.
  induction s as [|c s IH]; [done|]. cbn [str_split].
  destruct (str_split_cons sep s) as (l & ls & Hs). rewrite Hs in *.
  destruct (Ascii.eqb_spec c sep) as [->|Hne].
  - change (str_join (String sep "") ("" :: l :: ls))
      with (String sep (str_join (String sep "") (l :: ls))).
    by rewrite IH.
  - rewrite <- IH. by destruct ls.
Qed.

(** *** Help text *)

Lemma docstring_of_text (name text : string) (func : Function.t) :
  Function.getdoc func = Some text → text ≠ "" →
  Command._docstring (Command.mk name func) =
    match str_split newline text with
    | [_] | [] => (text, "")
    | first :: second :: rest =>
        if String.eqb second "" then (first, str_join NL rest)
        else ("Command " +:+ name, text)
    end.
Proof.
  intros Hdoc Hne. unfold Command._docstring. cbn [Command.func Command.name].
  rewrite Hdoc. apply String.eqb_neq in Hne. rewrite Hne.
  by destruct (str_split newline text) as [|? [|? ?]].
Qed.

Lemma docstring_of_name (name : string) (func : Function.t) :
  Function.getdoc func = None ∨ Function.getdoc func = Some "" →
  str_contains newline name = false →
  Command._docstring (Command.mk name func) = (name, "").
Proof.
  intros Hdoc Hname. unfold Command._docstring.
  cbn [Command.func Command.name].
  assert (match Function.getdoc func with
          | Some doc => if String.eqb doc "" then name else doc
          | None => name
          end = name) as -> by (by destruct Hdoc as [-> | ->]).
  by rewrite (str_split_no_sep _ _ Hname).
Qed.

(** C2 (amended). For every non-empty help text attached to the wrapped
    function, the pair (description, documentation) follows the
    three-way rule: a text of one line yields that line and an empty
    documentation; a text whose second line is empty yields its first
    line and the lines from the third on joined with newlines (which is
    the text after the blank line); any other text yields
    "Command <name>" and the whole text. When the function has no help
    text, or an empty one, the command's name is the description and the
    documentation is empty. *)
Theorem docstring_three_way_rule (name : string) (func : Function.t) :
  (∀ text, Function.getdoc func = Some text → text ≠ "" →
     (∀ line, str_split newline text = [line] →
        line = text ∧
        Command._docstring (Command.mk name func) = (line, ""))
     ∧ (∀ first rest, str_split newline text = first :: "" :: rest →
        Command._docstring (Command.mk name func) = (first, str_join NL rest))
     ∧ (∀ first second rest,
        str_split newline text = first :: second :: rest → second ≠ "" →
        Command._docstring (Command.mk name func)
        = ("Command " +:+ name, text))
     ∧ (str_contains newline text = false →
        Command._docstring (Command.mk name func) = (text, ""))
     ∧ (∀ first rest, str_contains newline first = false →
        text = first +:+ NL +:+ NL +:+ rest →
        Command._docstring (Command.mk name func) = (first, rest)))
  ∧ (Function.getdoc func = None ∨ Function.getdoc func = Some "" →
     str_contains newline name = false →
     Command._docstring (Command.mk name func) = (name, "")).
Proof.
  split; [|apply docstring_of_name].
  intros text Hdoc Hne. rewrite (docstring_of_text _ _ _ Hdoc Hne).
  pose proof (str_join_split newline text) as Hj.
  split_and!.
  - intros line Hline. rewrite Hline in *. cbn [str_join] in Hj. by subst.
  - intros first rest ->. done.
  - intros first second rest -> Hsecond.
    apply String.eqb_neq in Hsecond. by rewrite Hsecond.
  - intros Hline. by rewrite (str_split_no_sep _ _ Hline).
  - intros first rest Hfirst ->.
    change (first +:+ NL +:+ NL +:+ rest)
      with (first +:+ String newline (String newline rest)).
    rewrite (str_split_app _ _ _ Hfirst). cbn [str_split].
    rewrite Ascii.eqb_refl. cbn [String.eqb].
    unfold NL. by rewrite (str_join_split newline rest).
Qed.

(** The module's own example: a description, a blank line and the
    details; and a function without help text. *)
Lemma docstring_three_way_rule_witness :
  (Function.getdoc echo = Some echo_doc ∧ echo_doc ≠ ""
   ∧ str_contains newline "Echo command help message" = false
   ∧ Command._docstring (Command.mk "echo" echo)
     = ("Echo command help message", "Detailed echo command help message"))
  ∧ (Function.getdoc f_abc_rest = None ∧ str_contains newline "f" = false
     ∧ Command._docstring (Command.mk "f" f_abc_rest) = ("f", "")).
Proof.
  split.
  - split_and!; [reflexivity | discriminate | reflexivity |].
    destruct (proj1 (docstring_three_way_rule "echo" echo) echo_doc eq_refl)
      as (_ & _ & _ & _ & Hblank); [discriminate|].
    apply Hblank; reflexivity.
  - split_and!; [reflexivity | reflexivity |].
    apply (proj2 (docstring_three_way_rule "f" f_abc_rest));
      [left|]; reflexivity.
Defined.

(** The claim as stated fails on an empty help text: it is a text of
    one (empty) line, yet the description is the command's name. *)
Lemma docstring_empty_text_counterexample :
  Function.getdoc f_empty_doc = Some ""
  ∧ str_split newline "" = [""]
  ∧ Command._docstring (Command.mk "f" f_empty_doc) = ("f", "")
  ∧ Command._docstring (Command.mk "f" f_empty_doc) ≠ ("", "").
Proof. split_and!; [reflexivity | reflexivity | reflexivity | discriminate]. Qed.

(** *** Reconstruction of the call *)

Lemma is_VarArgs_true (t : pytype) : is_VarArgs t = true ↔ t = T_VarArgs.
Proof. by destruct t. Qed.

Lemma is_VarArgs_false (t : pytype) : is_VarArgs t = false ↔ t ≠ T_VarArgs.
Proof. by destruct t. Qed.

Lemma getitem_Some {A} (params : gmap string A) (name : string) (v : A) :
  params !! name = Some v → getitem params name = Ok v.
Proof. unfold getitem. by intros ->. Qed.

Lemma required_args_spec (params : gmap string value)
    (ps : list CommandParameter.t) :
  (∀ p, p ∈ ps → is_Some (params !! CommandParameter.name p)) →
  Command.required_args params ps
  = Ok ((λ p, params !!! CommandParameter.name p) <$> filter is_required ps).
Proof.
  induction ps as [|p ps IH]; intros Hin; [done|].
  cbn [Command.required_args].
  rewrite IH by (intros q Hq; apply Hin; by right).
  destruct (CommandParameter.required p) eqn:Hreq.
  - destruct (Hin p) as [v Hv]; [by left|].
    rewrite (getitem_Some _ _ _ Hv). cbn [bind].
    rewrite filter_cons_True by done. cbn [fmap list_fmap].
    by rewrite (lookup_total_correct _ _ _ Hv).
  - rewrite filter_cons_False; [done|]. unfold is_required. by rewrite Hreq.
Qed.

Lemma optional_kwargs_spec (params : gmap string value)
    (ps : list CommandParameter.t) (kwargs : gmap string value) :
  (∀ p, p ∈ ps → is_Some (params !! CommandParameter.name p)) →
  ∃ kwargs',
    Command.optional_kwargs params ps kwargs = Ok kwargs'
    ∧ ∀ k, kwargs' !! k
           = if decide (k ∈ keyword_names ps) then params !! k else kwargs !! k.
Proof.
  revert kwargs. induction ps as [|p ps IH]; intros kwargs Hin.
  { exists kwargs. split; [done|]. intros k. by rewrite decide_False by set_solver. }
  cbn [Command.optional_kwargs]. unfold keyword_names.
  assert (∀ q, q ∈ ps → is_Some (params !! CommandParameter.name q)) as Hin'
    by (intros q Hq; apply Hin; by right).
  destruct (decide (is_keyword p)) as [Hkw | Hkw].
  - destruct Hkw as [Hreq Hty]. rewrite Hreq.
    apply is_VarArgs_false in Hty as Hty'. rewrite Hty'. cbn [negb andb].
    destruct (Hin p) as [v Hv]; [by left|].
    rewrite (getitem_Some _ _ _ Hv). cbn [bind].
    destruct (IH (<[CommandParameter.name p := v]> kwargs) Hin')
      as (kwargs' & -> & Hlook).
    exists kwargs'. split; [done|]. intros k. rewrite Hlook.
    rewrite filter_cons_True by done. cbn [fmap list_fmap].
    unfold keyword_names.
    destruct (decide (k = CommandParameter.name p)) as [-> | Hne].
    + rewrite (decide_True (P := _ ∈ _ :: _)) by set_solver.
      case_decide; [done|]. by rewrite lookup_insert_eq.
    + rewrite lookup_insert_ne by done.
      destruct (decide (k ∈ CommandParameter.name <$> filter is_keyword ps)).
      * by rewrite decide_True by (apply elem_of_cons; by right).
      * by rewrite decide_False by (by intros [?|?]%elem_of_cons).
  - assert (negb (CommandParameter.required p)
            && negb (is_VarArgs (CommandParameter.type p)) = false) as ->.
    { apply not_true_is_false. intros [Hr Ht]%andb_true_iff. apply Hkw.
      split; [by destruct (CommandParameter.required p)|].
      apply is_VarArgs_false. by destruct (is_VarArgs _). }
    rewrite filter_cons_False by done. by apply IH.
Qed.

Lemma extend_varargs_spec (params : gmap string value)
    (ps : list CommandParameter.t) (args : list value) :
  (∀ p, p ∈ ps → is_Some (params !! CommandParameter.name p)) →
  (∀ p, p ∈ ps → is_variadic p →
        ∃ l, iter (params !!! CommandParameter.name p) = Ok l) →
  Command.extend_varargs params ps args
  = Ok (args ++ mjoin ((λ p, elements (params !!! CommandParameter.name p))
                         <$> filter is_variadic ps)).
Proof.
  revert args. induction ps as [|p ps IH]; intros args Hin Hseq.
  { cbn. by rewrite app_nil_r. }
  cbn [Command.extend_varargs].
  assert (∀ q, q ∈ ps → is_Some (params !! CommandParameter.name q)) as Hin'
    by (intros q Hq; apply Hin; by right).
  assert (∀ q, q ∈ ps → is_variadic q →
            ∃ l, iter (params !!! CommandParameter.name q) = Ok l) as Hseq'
    by (intros q Hq; apply Hseq; by right).
  destruct (decide (is_variadic p)) as [Hvar | Hvar].
  - apply is_VarArgs_true in Hvar as Hvar'. rewrite Hvar'.
    destruct (Hin p) as [v Hv]; [by left|].
    destruct (Hseq p) as [l Hl]; [by left | done |].
    rewrite (lookup_total_correct _ _ _ Hv) in Hl.
    rewrite (getitem_Some _ _ _ Hv). cbn [bind]. rewrite Hl. cbn [bind].
    rewrite IH by done. rewrite filter_cons_True by done.
    cbn [fmap list_fmap mjoin list_join].
    rewrite (lookup_total_correct _ _ _ Hv). unfold elements. rewrite Hl.
    by rewrite app_assoc.
  - assert (is_VarArgs (CommandParameter.type p) = false) as ->
      by by apply is_VarArgs_false.
    rewrite filter_cons_False by done. by apply IH.
Qed.

(** C1. For every command and every flat mapping that has an entry for
    each declared parameter (a sequence for a variadic one), the
    reconstruction returns the pair (positional, keyword): positional
    lists the values of the required parameters in declaration order,
    followed by the elements of the variadic parameter's sequence;
    keyword maps exactly the names of the parameters that are neither
    required nor variadic to their values. For [f(a, b, c=5, *rest)] and
    [{a: 1, b: 2, c: 7, rest: [9, 10]}] it returns [[1, 2, 9, 10]] and
    [{c: 7}]. *)
Theorem split_parameters_reconstruction :
  (∀ (self : Command.t) (ps : list CommandParameter.t)
     (params : gmap string value),
     Command.parameters self = Ok ps →
     (∀ p, p ∈ ps → is_Some (params !! CommandParameter.name p)) →
     (∀ p, p ∈ ps → is_variadic p →
           is_sequence (params !!! CommandParameter.name p)) →
     ∃ kwargs : gmap string value,
       Command.split_parameters self params
       = Ok (positional_of params ps, kwargs)
       ∧ ∀ k, kwargs !! k
              = if decide (k ∈ keyword_names ps) then params !! k else None)
  ∧ Command.split_parameters (Command.mk "f" f_abc_rest) mapping_abc_rest
    = Ok ([VInt 1; VInt 2; VInt 9; VInt 10], {["c" := VInt 7]}).
Proof.
  split; [|by vm_compute].
  intros self ps params Hps Hin Hseq. unfold Command.split_parameters.
  rewrite Hps. cbn [bind]. rewrite (required_args_spec _ _ Hin). cbn [bind].
  destruct (optional_kwargs_spec params ps ∅ Hin) as (kwargs & -> & Hlook).
  cbn [bind]. rewrite (extend_varargs_spec _ _ _ Hin Hseq). cbn [bind].
  exists kwargs. split; [done|]. intros k. rewrite Hlook.
  by rewrite lookup_empty.
Qed.

Lemma split_parameters_reconstruction_witness :
  Command.parameters (Command.mk "f" f_abc_rest) = Ok ps_abc_rest
  ∧ Forall (λ p, is_Some (mapping_abc_rest !! CommandParameter.name p))
      ps_abc_rest
  ∧ positional_of mapping_abc_rest ps_abc_rest
    = [VInt 1; VInt 2; VInt 9; VInt 10]
  ∧ keyword_names ps_abc_rest = ["c"]
  ∧ ∃ kwargs : gmap string value,
      Command.split_parameters (Command.mk "f" f_abc_rest) mapping_abc_rest
      = Ok (positional_of mapping_abc_rest ps_abc_rest, kwargs)
      ∧ ∀ k, kwargs !! k
             = if decide (k ∈ keyword_names ps_abc_rest)
               then mapping_abc_rest !! k else None.
Proof.
  assert (Forall (λ p, is_Some (mapping_abc_rest !! CommandParameter.name p))
            ps_abc_rest) as Hin
    by (repeat constructor; eexists; reflexivity).
  split_and!; [reflexivity | exact Hin | reflexivity | reflexivity |].
  apply (proj1 split_parameters_reconstruction).
  - reflexivity.
  - by apply Forall_forall.
  - intros p Hp Hvar. apply Forall_forall with (x := p) in Hin; [|done].
    unfold ps_abc_rest in Hp.
    repeat (apply elem_of_cons in Hp as [-> | Hp]);
      try discriminate Hvar; [|by apply elem_of_nil in Hp].
    eexists. reflexivity.
Defined.

(** *** Entries of the mapping that name no parameter *)

Lemma for_each_Ok {A B} (body : A → result B) (xs : list A) (ys : list B) :
  for_each body xs = Ok ys → Forall2 (λ x y, body x = Ok y) xs ys.
Proof.
  revert ys. induction xs as [|x xs IH]; intros ys; cbn [for_each].
  - intros [= <-]. constructor.
  - destruct (body x) as [y|e] eqn:Hx; [|done]. cbn [bind].
    destruct (for_each body xs) as [ys'|e]; [|done]. cbn [bind].
    intros [= <-]. constructor; [done|]. by apply IH.
Qed.

Lemma init_name (info : InspectParameter.t) (p : CommandParameter.t) :
  CommandParameter.__init__ info = Ok p →
  CommandParameter.name p = InspectParameter.name info.
Proof.
  unfold CommandParameter.__init__.
  destruct info as [name k default ann]; cbn.
  destruct ann, default as [d|], k; try destruct (is_not_None d);
    intros [= <-]; reflexivity.
Qed.

Lemma parameters_names (self : Command.t) (ps : list CommandParameter.t) :
  Command.parameters self = Ok ps →
  CommandParameter.name <$> ps
  = InspectParameter.name <$> Function.signature (Command.func self).
Proof.
  unfold Command.parameters. intros Hps%for_each_Ok.
  induction Hps as [|info p sig ps Hp _ IH]; [done|].
  cbn [fmap list_fmap]. f_equal; [by apply init_name | exact IH].
Qed.

Lemma getitem_ext {A} (params1 params2 : gmap string A) (name : string) :
  params1 !! name = params2 !! name →
  getitem params1 name = getitem params2 name.
Proof. unfold getitem. by intros ->. Qed.

Section Agreement.

Variables params1 params2 : gmap string value.

Lemma agree_on_cons (p : CommandParameter.t) (ps : list CommandParameter.t) :
  agree_on params1 params2 (p :: ps) →
  params1 !! CommandParameter.name p = params2 !! CommandParameter.name p
  ∧ agree_on params1 params2 ps.
Proof.
  intros H. split; [apply H; by left|]. intros q Hq. apply H. by right.
Qed.

Lemma required_args_ext (ps : list CommandParameter.t) :
  agree_on params1 params2 ps →
  Command.required_args params1 ps = Command.required_args params2 ps.
Proof.
  induction ps as [|p ps IH]; [done|].
  intros [Hp Hps]%agree_on_cons. cbn [Command.required_args].
  by rewrite (getitem_ext _ _ _ Hp), (IH Hps).
Qed.

Lemma optional_kwargs_ext (ps : list CommandParameter.t)
    (kwargs : gmap string value) :
  agree_on params1 params2 ps →
  Command.optional_kwargs params1 ps kwargs
  = Command.optional_kwargs params2 ps kwargs.
Proof.
  revert kwargs. induction ps as [|p ps IH]; [done|].
  intros kwargs [Hp Hps]%agree_on_cons. cbn [Command.optional_kwargs].
  rewrite (getitem_ext _ _ _ Hp), (IH kwargs Hps).
  destruct (_ && _); [|done].
  destruct (getitem params2 _); cbn [bind]; [by apply IH | done].
Qed.

Lemma extend_varargs_ext (ps : list CommandParameter.t) (args : list value) :
  agree_on params1 params2 ps →
  Command.extend_varargs params1 ps args
  = Command.extend_varargs params2 ps args.
Proof.
  revert args. induction ps as [|p ps IH]; [done|].
  intros args [Hp Hps]%agree_on_cons. cbn [Command.extend_varargs].
  rewrite (getitem_ext _ _ _ Hp), (IH args Hps).
  destruct (is_VarArgs _); [|done].
  destruct (getitem params2 _); cbn [bind]; [|done].
  destruct (iter _); cbn [bind]; [by apply IH | done].
Qed.

End Agreement.

Lemma optional_kwargs_keys (params : gmap string value)
    (ps : list CommandParameter.t) (kwargs kwargs' : gmap string value)
    (k : string) :
  Command.optional_kwargs params ps kwargs = Ok kwargs' →
  k ∉ CommandParameter.name <$> ps →
  kwargs' !! k = kwargs !! k.
Proof.
  revert kwargs. induction ps as [|p ps IH]; intros kwargs.
  { by intros [= <-]. }
  cbn [Command.optional_kwargs fmap list_fmap].
  intros Hrun [Hk Hks]%not_elem_of_cons.
  destruct (_ && _).
  - destruct (getitem params _) as [v|]; [|done]. cbn [bind] in Hrun.
    rewrite (IH _ Hrun Hks). by rewrite lookup_insert_ne.
  - by apply IH.
Qed.

(** C10. The reconstruction reads the mapping only at the names of the
    command's declared parameters: two mappings that agree on those
    names give the same (positional, keyword) result, or the same
    error. In particular, for a command that declares no parameter
    named "version", the result is the same whether the mapping holds
    the top-level "version" entry or not, and "version" is not among
    the keyword arguments. *)
Theorem split_parameters_ignores_undeclared :
  (∀ (self : Command.t) (params1 params2 : gmap string value),
     (∀ info, info ∈ Function.signature (Command.func self) →
        params1 !! InspectParameter.name info
        = params2 !! InspectParameter.name info) →
     Command.split_parameters self params1
     = Command.split_parameters self params2)
  ∧ (∀ (self : Command.t) (params : gmap string value) (v : value),
       (∀ info, info ∈ Function.signature (Command.func self) →
          InspectParameter.name info ≠ "version") →
       Command.split_parameters self (<["version" := v]> params)
       = Command.split_parameters self (delete "version" params)
       ∧ ∀ args kwargs,
           Command.split_parameters self (<["version" := v]> params)
           = Ok (args, kwargs) →
           kwargs !! "version" = None).
Proof.
  assert (∀ (self : Command.t) (params1 params2 : gmap string value),
     (∀ info, info ∈ Function.signature (Command.func self) →
        params1 !! InspectParameter.name info
        = params2 !! InspectParameter.name info) →
     Command.split_parameters self params1
     = Command.split_parameters self params2) as Hagree.
  { intros self params1 params2 Hsame. unfold Command.split_parameters.
    destruct (Command.parameters self) as [ps|e] eqn:Hps; [|done].
    cbn [bind].
    assert (agree_on params1 params2 ps) as Hps'.
    { intros p Hp.
      assert (CommandParameter.name p ∈ CommandParameter.name <$> ps) as Hn
        by (apply list_elem_of_fmap; eauto).
      rewrite (parameters_names _ _ Hps) in Hn.
      apply list_elem_of_fmap in Hn as (info & -> & Hinfo). by apply Hsame. }
    rewrite (required_args_ext _ _ _ Hps').
    rewrite (optional_kwargs_ext _ _ _ _ Hps').
    destruct (Command.required_args params2 ps) as [args|]; [|done].
    cbn [bind].
    destruct (Command.optional_kwargs params2 ps ∅); [|done]. cbn [bind].
    by rewrite (extend_varargs_ext _ _ _ _ Hps'). }
  split; [exact Hagree|].
  intros self params v Hfresh. split.
  - apply Hagree. intros info Hinfo.
    rewrite lookup_insert_ne by (intros Heq; by apply (Hfresh info)).
    rewrite lookup_delete_ne by (intros Heq; by apply (Hfresh info)). done.
  - intros args kwargs. unfold Command.split_parameters.
    destruct (Command.parameters self) as [ps|e] eqn:Hps; [|done].
    cbn [bind].
    destruct (Command.required_args _ ps) as [args0|]; [|done]. cbn [bind].
    destruct (Command.optional_kwargs _ ps ∅) as [kw|] eqn:Hkw; [|done].
    cbn [bind]. destruct (Command.extend_varargs _ ps args0); [|done].
    cbn [bind]. intros [= _ <-].
    rewrite (optional_kwargs_keys _ _ _ _ "version" Hkw); [done|].
    rewrite (parameters_names _ _ Hps).
    intros (info & Heq & Hinfo)%list_elem_of_fmap. by apply (Hfresh info).
Qed.

Lemma split_parameters_ignores_undeclared_witness :
  Forall (λ info, InspectParameter.name info ≠ "version")
    (Function.signature f_abc_rest)
  ∧ Command.split_parameters (Command.mk "f" f_abc_rest)
      (<["version" := VBool true]> mapping_abc_rest)
    = Command.split_parameters (Command.mk "f" f_abc_rest)
        (delete "version" mapping_abc_rest)
  ∧ Command.split_parameters (Command.mk "f" f_abc_rest)
      (<["version" := VBool true]> mapping_abc_rest)
    = Ok ([VInt 1; VInt 2; VInt 9; VInt 10], {["c" := VInt 7]}).
Proof.
  assert (Forall (λ info, InspectParameter.name info ≠ "version")
            (Function.signature f_abc_rest)) as Hfresh
    by (repeat constructor; discriminate).
  split_and!; [exact Hfresh | | by vm_compute].
  apply (proj2 split_parameters_ignores_undeclared
           (Command.mk "f" f_abc_rest) mapping_abc_rest (VBool true)).
  by apply Forall_forall.
Defined.

(** *** The parser specification of a Boolean option *)

(** C8. For every optional Boolean parameter the entry given to the
    parser is a flag switch that flips the stated default: with a falsy
    default the switch stores true when the flag is present (and false
    when absent); with a truthy default it stores false when present
    (and true when absent). *)
Theorem boolean_flag_flips_default (param : CommandParameter.t) :
  CommandParameter.type param = Tbool →
  CommandParameter.required param = false →
  CLI.add_argument param
  = argparse.mk_argument
      ["--" +:+ CommandParameter.name param] None
      (CommandParameter.description param) None (Some false) None None
      (if truthy (CommandParameter.default param)
       then argparse.store_false else argparse.store_true)
  ∧ argparse.when_present (argparse.arg_action (CLI.add_argument param))
    = Some (negb (truthy (CommandParameter.default param)))
  ∧ argparse.when_absent (argparse.arg_action (CLI.add_argument param))
    = Some (truthy (CommandParameter.default param)).
Proof.
  intros Hty Hreq. unfold CLI.add_argument. rewrite Hty, Hreq.
  cbn [is_VarArgs is_bool argparse.arg_action].
  by destruct (truthy (CommandParameter.default param)).
Qed.

Lemma boolean_flag_flips_default_witness :
  (CommandParameter.__init__ (with_default "cap" (VBool false)) = Ok cap_param
   ∧ CommandParameter.type cap_param = Tbool
   ∧ CommandParameter.required cap_param = false
   ∧ argparse.when_present (argparse.arg_action (CLI.add_argument cap_param))
     = Some true)
  ∧ (CommandParameter.__init__ (with_default "color" (VBool true))
     = Ok color_param
     ∧ argparse.when_present
         (argparse.arg_action (CLI.add_argument color_param))
       = Some false).
Proof.
  split.
  - split_and!; [reflexivity | reflexivity | reflexivity |].
    apply (boolean_flag_flips_default cap_param); reflexivity.
  - split; [reflexivity|].
    apply (boolean_flag_flips_default color_param); reflexivity.
Defined.

(** *** Type inference of a parameter *)

(** The claim as stated fails for [x: int = "hello"]: the derived type
    is the marker [int], not the type [str] of the default. *)
Lemma bare_marker_with_default_counterexample :
  InspectParameter.annotation x_int_hello = AnnType Tint
  ∧ InspectParameter.default x_int_hello = Some (VStr "hello")
  ∧ ∃ p, CommandParameter.__init__ x_int_hello = Ok p
         ∧ CommandParameter.type p = Tint
         ∧ CommandParameter.type p ≠ type_of (VStr "hello").
Proof. split_and!; [done | done |]. eexists. by split_and!. Qed.

(** C5 (amended). For every formal parameter with no explicit
    annotation object: if it carries a bare type marker, the derived
    type is that marker whether or not it has a default value, the
    description is "Parameter '<name>' of <TypeName>" for the marker and
    choices is none; the runtime type of a non-null default is the
    derived type only when there is no bare marker either. (The type of
    a variadic-positional parameter is then overridden.) *)
Theorem bare_marker_precedes_default (info : InspectParameter.t) :
  InspectParameter.kind info ≠ VAR_KEYWORD →
  (∀ ty, InspectParameter.annotation info = AnnType ty →
     ∃ p, CommandParameter.__init__ info = Ok p
          ∧ CommandParameter.type p = overridden (InspectParameter.kind info) ty
          ∧ CommandParameter.pretty_name p = InspectParameter.name info
          ∧ CommandParameter.description p
            = "Parameter '" +:+ InspectParameter.name info +:+ "' of "
              +:+ CommandParameter.type_name ty
          ∧ CommandParameter.choices p = None)
  ∧ (∀ d, unannotated info → InspectParameter.default info = Some d →
       d ≠ VNone →
       ∃ p, CommandParameter.__init__ info = Ok p
            ∧ CommandParameter.type p
              = overridden (InspectParameter.kind info) (type_of d)
            ∧ CommandParameter.pretty_name p = InspectParameter.name info
            ∧ CommandParameter.description p
              = "Parameter '" +:+ InspectParameter.name info +:+ "' of "
                +:+ CommandParameter.type_name (type_of d)
            ∧ CommandParameter.choices p = None).
Proof.
  destruct info as [name k default ann]. cbn. intros Hk. split.
  - intros ty ->. unfold CommandParameter.__init__. cbn.
    destruct k, default; try done; eexists; by split_and!.
  - intros d Hann -> Hd. unfold CommandParameter.__init__. cbn.
    assert (is_not_None d = true) as Hd' by by destruct d.
    destruct ann; try done; rewrite Hd';
      destruct k; try done; eexists; by split_and!.
Qed.

Lemma bare_marker_precedes_default_witness :
  InspectParameter.kind x_int_hello ≠ VAR_KEYWORD
  ∧ (∃ p, CommandParameter.__init__ x_int_hello = Ok p
          ∧ CommandParameter.type p = Tint
          ∧ CommandParameter.pretty_name p = "x"
          ∧ CommandParameter.description p = "Parameter 'x' of Number"
          ∧ CommandParameter.choices p = None)
  ∧ (∃ p, CommandParameter.__init__ count_3 = Ok p
          ∧ CommandParameter.type p = Tint
          ∧ CommandParameter.pretty_name p = "count"
          ∧ CommandParameter.description p = "Parameter 'count' of Number"
          ∧ CommandParameter.choices p = None).
Proof.
  split_and!; [discriminate | |].
  - apply (proj1 (bare_marker_precedes_default x_int_hello
                    ltac:(discriminate)) Tint eq_refl).
  - apply (proj2 (bare_marker_precedes_default count_3
                    ltac:(discriminate)) (VInt 3) I eq_refl).
    discriminate.
Defined.

(** *** The variadic parameter *)

Lemma for_each_app {A B} (body : A → result B) (xs1 xs2 : list A)
    (ys1 ys2 : list B) :
  for_each body xs1 = Ok ys1 → for_each body xs2 = Ok ys2 →
  for_each body (xs1 ++ xs2) = Ok (ys1 ++ ys2).
Proof.
  revert ys1. induction xs1 as [|x xs1 IH]; intros ys1; cbn [for_each app].
  - by intros [= <-].
  - destruct (body x) as [y|]; [|done]. cbn [bind].
    destruct (for_each body xs1) as [ys|]; [|done]. cbn [bind].
    intros [= <-] H2. by rewrite (IH ys eq_refl H2).
Qed.

Lemma for_each_total {A B} (body : A → result B) (xs : list A) :
  (∀ x, x ∈ xs → ∃ y, body x = Ok y) → ∃ ys, for_each body xs = Ok ys.
Proof.
  induction xs as [|x xs IH]; intros Hok; [by exists []|].
  destruct (Hok x) as [y Hy]; [by left|].
  destruct IH as [ys Hys]; [intros x' Hx'; apply Hok; by right|].
  exists (y :: ys). cbn [for_each]. by rewrite Hy, Hys.
Qed.

Lemma init_total (info : InspectParameter.t) :
  InspectParameter.kind info ≠ VAR_KEYWORD →
  ∃ p, CommandParameter.__init__ info = Ok p.
Proof.
  destruct info as [name k default ann]. cbn. intros Hk.
  unfold CommandParameter.__init__. cbn.
  destruct ann, default as [d|], k; try done;
    try destruct (is_not_None d); by eexists.
Qed.

Lemma init_var_positional (info : InspectParameter.t) :
  InspectParameter.kind info = VAR_POSITIONAL →
  ∃ q, CommandParameter.__init__ info = Ok q
       ∧ CommandParameter.name q = InspectParameter.name info
       ∧ CommandParameter.type q = T_VarArgs
       ∧ CommandParameter.required q = false
       ∧ CommandParameter.default q = VList [].
Proof.
  destruct info as [name k default ann]. cbn. intros ->.
  unfold CommandParameter.__init__. cbn.
  destruct ann, default as [d|]; try destruct (is_not_None d);
    eexists; by split_and!.
Qed.

Lemma init_ordinary_type (info : InspectParameter.t) (p : CommandParameter.t) :
  ordinary info → ¬ declares_VarArgs info →
  CommandParameter.__init__ info = Ok p →
  CommandParameter.type p ≠ T_VarArgs.
Proof.
  destruct info as [name k default ann].
  unfold ordinary, declares_VarArgs, CommandParameter.__init__. cbn.
  intros [Hk1 Hk2] Hdecl.
  destruct ann, default as [d|], k; try done;
    try (destruct d; cbn in * ); intros [= <-]; cbn; done.
Qed.

Lemma ordinary_not_variadic (pre : list InspectParameter.t)
    (ps : list CommandParameter.t) :
  Forall2 (λ info p, CommandParameter.__init__ info = Ok p) pre ps →
  (∀ info, info ∈ pre → ordinary info ∧ ¬ declares_VarArgs info) →
  filter is_variadic ps = [].
Proof.
  induction 1 as [|info p pre ps Hp _ IH]; intros Hpre; [done|].
  destruct (Hpre info) as [Hord Hdecl]; [by left|].
  rewrite filter_cons_False
    by (by apply (init_ordinary_type info p Hord Hdecl)).
  apply IH. intros info' Hin. apply Hpre. by right.
Qed.

(** The claim as stated fails for [def g(x: _VarArgs = [], *rest)]: two
    derived parameters have type [_VarArgs], are not required and have an
    empty list as default. *)
Lemma two_variadic_typed_counterexample :
  ∃ p q,
    Command.parameters (Command.mk "g" g_marked_rest) = Ok [p; q]
    ∧ CommandParameter.name p ≠ CommandParameter.name q
    ∧ (CommandParameter.type p = T_VarArgs
       ∧ CommandParameter.required p = false
       ∧ CommandParameter.default p = VList [])
    ∧ (CommandParameter.type q = T_VarArgs
       ∧ CommandParameter.required q = false
       ∧ CommandParameter.default q = VList []).
Proof. do 2 eexists. by split_and!. Qed.

(** C6 (amended). For every callable whose last parameter is
    variable-positional (and none is variable-keyword), the parameter
    derived from it has type VariadicList, required = false and the
    empty sequence as default, whatever annotation or default is
    attached to it: the override runs after the annotation handling. It
    is the only parameter of that type provided no other parameter is
    given the marker type by its annotation or by its default. *)
Theorem variadic_parameter_override (name : string) (func : Function.t)
    (pre : list InspectParameter.t) (v : InspectParameter.t) :
  Function.signature func = pre ++ [v] →
  InspectParameter.kind v = VAR_POSITIONAL →
  (∀ info, info ∈ pre → InspectParameter.kind info ≠ VAR_KEYWORD) →
  ∃ ps q,
    Command.parameters (Command.mk name func) = Ok (ps ++ [q])
    ∧ length ps = length pre
    ∧ CommandParameter.name q = InspectParameter.name v
    ∧ CommandParameter.type q = T_VarArgs
    ∧ CommandParameter.required q = false
    ∧ CommandParameter.default q = VList []
    ∧ ((∀ info, info ∈ pre → ordinary info ∧ ¬ declares_VarArgs info) →
       filter is_variadic (ps ++ [q]) = [q]).
Proof.
  intros Hsig Hv Hpre.
  destruct (for_each_total CommandParameter.__init__ pre) as [ps Hps].
  { intros info Hin. apply init_total. by apply Hpre. }
  destruct (init_var_positional v Hv) as (q & Hq & Hname & Hty & Hreq & Hdef).
  exists ps, q. unfold Command.parameters. cbn [Command.func]. rewrite Hsig.
  pose proof (for_each_Ok _ _ _ Hps) as Hall.
  split_and!; try done.
  - apply for_each_app; [done|]. cbn [for_each]. by rewrite Hq.
  - symmetry. by eapply Forall2_length.
  - intros Hord. rewrite filter_app, (ordinary_not_variadic pre ps Hall Hord).
    by rewrite filter_cons_True.
Qed.

Lemma variadic_parameter_override_witness :
  Function.signature h_a_rest = [plain "a"] ++ [rest_annotated]
  ∧ InspectParameter.kind rest_annotated = VAR_POSITIONAL
  ∧ Forall (λ info, ordinary info ∧ ¬ declares_VarArgs info) [plain "a"]
  ∧ ∃ ps q,
      Command.parameters (Command.mk "h" h_a_rest) = Ok (ps ++ [q])
      ∧ length ps = 1
      ∧ CommandParameter.name q = "rest"
      ∧ CommandParameter.type q = T_VarArgs
      ∧ CommandParameter.required q = false
      ∧ CommandParameter.default q = VList []
      ∧ filter is_variadic (ps ++ [q]) = [q].
Proof.
  assert (Forall (λ info, ordinary info ∧ ¬ declares_VarArgs info)
            [plain "a"]) as Hord.
  { repeat constructor; [discriminate | discriminate | by intros []]. }
  split_and!; [reflexivity | reflexivity | exact Hord |].
  destruct (variadic_parameter_override "h" h_a_rest [plain "a"]
              rest_annotated eq_refl eq_refl)
    as (ps & q & Hps & Hlen & Hname & Hty & Hreq & Hdef & Hone).
  { intros info Hin. apply Forall_forall with (x := info) in Hord; [|done].
    by destruct Hord as [[_ ?] _]. }
  exists ps, q. split_and!; try done. apply Hone.
  intros info Hin. by apply Forall_forall with (x := info) in Hord.
Defined.

(** *** Registration *)

Lemma dict_get_set {A} (k : string) (v : A) (d : list (string * A)) :
  dict_get k (dict_set k v d) = Some v.
Proof.
  induction d as [|[k' v'] d IH]; cbn [dict_set dict_get].
  - by rewrite String.eqb_refl.
  - destruct (String.eqb k' k) eqn:Hk; cbn [dict_get].
    + by rewrite String.eqb_refl.
    + by rewrite Hk.
Qed.

Lemma dict_get_values {A} (k : string) (v : A) (d : list (string * A)) :
  dict_get k d = Some v → v ∈ snd <$> d.
Proof.
  induction d as [|[k' v'] d IH]; cbn [dict_get fmap list_fmap snd]; [done|].
  destruct (String.eqb k' k).
  - intros [= ->]. by left.
  - intros Hv. right. by apply IH.
Qed.

Lemma for_each_Raise {A B} (body : A → result B) (xs : list A) (x : A)
    (e : exn) :
  x ∈ xs → body x = Raise e → ∃ e', for_each body xs = Raise e'.
Proof.
  induction xs as [|x' xs IH]; [by intros ?%elem_of_nil|].
  intros [-> | Hin]%elem_of_cons Hx; cbn [for_each].
  - rewrite Hx. by eexists.
  - destruct (body x'); cbn [bind]; [|by eexists].
    destruct (IH Hin Hx) as [e' ->]. by eexists.
Qed.

Lemma init_Raise (info : InspectParameter.t) (e : exn) :
  CommandParameter.__init__ info = Raise e → e = TypeError not_supported.
Proof.
  destruct info as [name k default ann]. unfold CommandParameter.__init__.
  cbn. destruct ann, default as [d|], k; try destruct (is_not_None d);
    by intros [= <-].
Qed.

Lemma parameters_var_keyword (self : Command.t) (info : InspectParameter.t) :
  info ∈ Function.signature (Command.func self) →
  InspectParameter.kind info = VAR_KEYWORD →
  Command.parameters self = Raise (TypeError not_supported).
Proof.
  unfold Command.parameters. generalize (Function.signature (Command.func self)).
  intros sig Hin Hk. induction sig as [|info' sig IH]; [by apply elem_of_nil in Hin|].
  cbn [for_each].
  destruct (CommandParameter.__init__ info') as [p|e] eqn:Hinit.
  - cbn [bind]. apply elem_of_cons in Hin as [-> | Hin].
    + unfold CommandParameter.__init__ in Hinit. by rewrite Hk in Hinit.
    + by rewrite (IH Hin).
  - cbn [bind]. by rewrite (init_Raise _ _ Hinit).
Qed.

(** The claim as stated fails for [def do_it(a, **options)]:
    registration raises nothing and stores the command. *)
Lemma registration_stores_invalid_command_counterexample :
  double_star "options" ∈ Function.signature do_it
  ∧ InspectParameter.kind (double_star "options") = VAR_KEYWORD
  ∧ CLI.command empty_cli do_it = Ok (cli_do_it, Command.mk "do-it" do_it)
  ∧ dict_get "do-it" (CLI.commands cli_do_it) = Some (Command.mk "do-it" do_it).
Proof.
  split_and!; [|done..]. apply elem_of_cons. right. by left.
Qed.

(** C4 (amended). For every callable whose signature contains a
    variable-keyword parameter, registration itself raises nothing and
    stores the command under its dash-cased name; the configuration
    error is raised when the command's parameters are derived from the
    signature, which first happens when the parser is built: from then
    on no parse of that registry returns. *)
Theorem var_keyword_rejected_on_introspection (self : CLI.t)
    (func : Function.t) (info : InspectParameter.t) :
  info ∈ Function.signature func →
  InspectParameter.kind info = VAR_KEYWORD →
  ∃ (self' : CLI.t) (stored : Command.t),
    CLI.command self func = Ok (self', stored)
    ∧ stored = Command.mk (str_replace "_" "-" (Function.__name__ func)) func
    ∧ dict_get (Command.name stored) (CLI.commands self') = Some stored
    ∧ Command.parameters stored = Raise (TypeError not_supported)
    ∧ ∀ parse_args args, ∃ e, CLI.parse parse_args self' args = Raise e.
Proof.
  intros Hin Hk. unfold CLI.command. rewrite dict_get_set.
  do 2 eexists. split; [done|]. cbn [CLI.commands Command.name].
  rewrite dict_get_set.
  assert (Command.parameters
            (Command.mk (str_replace "_" "-" (Function.__name__ func)) func)
          = Raise (TypeError not_supported)) as Hparams
    by by apply (parameters_var_keyword _ info).
  split_and!; try done.
  intros parse_args args. unfold CLI.parse, CLI.build_parser.
  cbn [CLI.commands].
  destruct (for_each_Raise CLI.add_parser
              (snd <$> dict_set (str_replace "_" "-" (Function.__name__ func))
                 (Command.mk (str_replace "_" "-" (Function.__name__ func)) func)
                 (CLI.commands self))
              (Command.mk (str_replace "_" "-" (Function.__name__ func)) func)
              (TypeError not_supported)) as [e He].
  - eapply dict_get_values, dict_get_set.
  - unfold CLI.add_parser. by rewrite Hparams.
  - rewrite He. by eexists.
Qed.

Lemma var_keyword_rejected_on_introspection_witness :
  double_star "options" ∈ Function.signature do_it
  ∧ InspectParameter.kind (double_star "options") = VAR_KEYWORD
  ∧ ∃ (self' : CLI.t) (stored : Command.t),
      CLI.command empty_cli do_it = Ok (self', stored)
      ∧ stored = Command.mk "do-it" do_it
      ∧ dict_get "do-it" (CLI.commands self') = Some stored
      ∧ Command.parameters stored = Raise (TypeError not_supported)
      ∧ ∀ parse_args args, ∃ e, CLI.parse parse_args self' args = Raise e.
Proof.
  assert (double_star "options" ∈ Function.signature do_it) as Hin
    by (apply elem_of_cons; right; by left).
  split_and!; [exact Hin | reflexivity |].
  destruct (var_keyword_rejected_on_introspection empty_cli do_it
              (double_star "options") Hin eq_refl)
    as (self' & stored & Hreg & -> & Hget & Hparams & Hparse).
  by exists self', (Command.mk "do-it" do_it).
Defined.

(** *** Dispatch *)

(** C3 (the code departs from it). Dispatching an empty token list is
    meant to print the top-level help and return without error. The
    code reaches for an attribute [parser] that no [CLI] instance has:
    for every registry the run raises [AttributeError] before anything
    is printed. No command is invoked: the trace is left as it was. *)
Theorem run_empty_raises
    (parse_args : argparse.parser → list string → result (gmap string value))
    (self : CLI.t) (tr : list event) :
  CLI.getattr self "parser"
  = Raise (AttributeError "'CLI' object has no attribute 'parser'")
  ∧ CLI.run parse_args self [] tr
    = (Raise (AttributeError "'CLI' object has no attribute 'parser'"), tr)
  ∧ ∀ ev, ev ∈ snd (CLI.run parse_args self [] tr) → ev ∈ tr.
Proof.
  assert (CLI.getattr self "parser"
          = Raise (AttributeError "'CLI' object has no attribute 'parser'"))
    as Hattr by reflexivity.
  split; [exact Hattr|].
  unfold CLI.run, bindM, lift. rewrite Hattr. by split.
Qed.

(** The claim as stated fails for [def answer(): return 42]: the run
    calls it and returns [None], not 42. *)
Lemma run_discards_result_counterexample :
  dict_get "answer" (CLI.commands cli_answer)
  = Some (Command.mk "answer" answer)
  ∧ Function.body answer [] ∅ = Ok (VInt 42)
  ∧ CLI.run (answering {["version" := VBool false]}) cli_answer ["answer"] []
    = (Ok VNone, [call "answer" [] ∅])
  ∧ VNone ≠ VInt 42.
Proof. split_and!; [done | done | by vm_compute | done]. Qed.

(** C7 (amended). For every dispatch whose first token matches a
    registered command, once the tokens are parsed and the arguments
    reconstructed, the registry calls the wrapped callable exactly once
    with the reconstructed positional and keyword arguments; it discards
    the callable's result and returns [None] to the dispatch caller; an
    exception raised by the callable propagates uncaught. *)
Theorem run_invokes_matched_command
    (parse_args : argparse.parser → list string → result (gmap string value))
    (self : CLI.t) (arg0 : string) (rest : list string) (command : Command.t)
    (argns : gmap string value) (args : list value)
    (kwargs : gmap string value) (tr : list event) :
  dict_get arg0 (CLI.commands self) = Some command →
  CLI.parse parse_args self (arg0 :: rest) = Ok argns →
  Command.split_parameters command argns = Ok (args, kwargs) →
  CLI.run parse_args self (arg0 :: rest) tr
  = (match Function.body (Command.func command) args kwargs with
     | Ok _ => Ok VNone
     | Raise e => Raise e
     end,
     tr ++ [call (Command.name command) args kwargs]).
Proof.
  intros Hcmd Hparse Hsplit.
  unfold CLI.run, bindM, lift. rewrite Hparse, Hcmd, Hsplit.
  unfold Command.__call__, bindM, emit, lift, ret.
  by destruct (Function.body _ _ _).
Qed.

Lemma run_invokes_matched_command_witness :
  dict_get "f" (CLI.commands cli_f) = Some (Command.mk "f" f_abc_rest)
  ∧ CLI.parse (answering (<["version" := VBool false]> mapping_abc_rest))
      cli_f ["f"; "1"; "2"; "--c"; "7"; "9"; "10"]
    = Ok (<["version" := VBool false]> mapping_abc_rest)
  ∧ Command.split_parameters (Command.mk "f" f_abc_rest)
      (<["version" := VBool false]> mapping_abc_rest)
    = Ok ([VInt 1; VInt 2; VInt 9; VInt 10], {["c" := VInt 7]})
  ∧ CLI.run (answering (<["version" := VBool false]> mapping_abc_rest))
      cli_f ["f"; "1"; "2"; "--c"; "7"; "9"; "10"] []
    = (Ok VNone,
       [call "f" [VInt 1; VInt 2; VInt 9; VInt 10] {["c" := VInt 7]}]).
Proof.
  split_and!; [reflexivity | reflexivity | by vm_compute |].
  apply (run_invokes_matched_command
           (answering (<["version" := VBool false]> mapping_abc_rest))
           cli_f "f" ["1"; "2"; "--c"; "7"; "9"; "10"]
           (Command.mk "f" f_abc_rest)
           (<["version" := VBool false]> mapping_abc_rest)
           [VInt 1; VInt 2; VInt 9; VInt 10] {["c" := VInt 7]} []).
  - reflexivity.
  - reflexivity.
  - by vm_compute.
Defined.

(** The claim as stated fails for the registry that holds
    [def do_it(a, **options)] and the tokens [["-v"]]: no command is
    named "-v", and the run raises the configuration error while the
    parser is built. *)
Lemma run_unmatched_token_raises_counterexample :
  dict_get "-v" (CLI.commands cli_do_it) = None
  ∧ CLI.run (answering {["version" := VBool true]}) cli_do_it ["-v"] []
    = (Raise (TypeError not_supported), []).
Proof. split; reflexivity. Qed.

(** C9 (amended). For every non-empty token list whose first token
    matches no registered command name, dispatch invokes no registered
    command. When the tokens are parsed, it does not raise: it prints
    the version when the top-level version flag is set, prints nothing
    otherwise, and returns. When building the parser or parsing raises,
    that exception propagates to the caller. *)
Theorem run_unmatched_token
    (parse_args : argparse.parser → list string → result (gmap string value))
    (self : CLI.t) (arg0 : string) (rest : list string) (tr : list event) :
  dict_get arg0 (CLI.commands self) = None →
  (∀ ev, ev ∈ snd (CLI.run parse_args self (arg0 :: rest) tr) →
         is_call ev → ev ∈ tr)
  ∧ (∀ argns v,
       CLI.parse parse_args self (arg0 :: rest) = Ok argns →
       argns !! "version" = Some v →
       CLI.run parse_args self (arg0 :: rest) tr
       = (Ok VNone,
          if truthy v then tr ++ [print (CLI.version self)] else tr))
  ∧ (∀ e,
       CLI.parse parse_args self (arg0 :: rest) = Raise e →
       CLI.run parse_args self (arg0 :: rest) tr = (Raise e, tr)).
Proof.
  intros Hcmd. unfold CLI.run, bindM, lift. rewrite Hcmd.
  destruct (CLI.parse parse_args self (arg0 :: rest)) as [argns|e].
  - unfold CLI.namespace_version, CLI.log, emit, ret.
    split_and!; [|by intros ? v [= <-] -> ; destruct (truthy v) | done].
    intros ev. destruct (argns !! "version") as [v|]; [|done].
    destruct (truthy v); cbn [snd]; [|done].
    intros [Hev | ->%list_elem_of_singleton]%elem_of_app; done.
  - split_and!; [done | done | by intros ? [= <-]].
Qed.

Lemma run_unmatched_token_witness :
  dict_get "-v" (CLI.commands cli_f) = None
  ∧ CLI.parse (answering {["version" := VBool true]}) cli_f ["-v"]
    = Ok {["version" := VBool true]}
  ∧ CLI.run (answering {["version" := VBool true]}) cli_f ["-v"] []
    = (Ok VNone, [print "1.0.0"]).
Proof.
  split_and!; [reflexivity | reflexivity |].
  apply (proj1 (proj2 (run_unmatched_token
                         (answering {["version" := VBool true]})
                         cli_f "-v" [] [] eq_refl))
           {["version" := VBool true]} (VBool true)); reflexivity.
Defined.

(** ** Further properties of the code *)

(** *** White space and lines *)

Lemma str_split_lines_no_sep (sep : ascii) (s : string) :
  Forall (λ l, str_contains sep l = false) (str_split sep s).
Proof.
  induction s as [|c s IH]; cbn [str_split]; [by repeat constructor|].
  destruct (Ascii.eqb c sep) eqn:Hc; [by constructor|].
  destruct (str_split_cons sep s) as (l & ls & Hs). rewrite Hs in *.
  inversion IH as [|? ? Hl Hls]; subst. constructor; [|done].
  cbn [str_contains]. by rewrite Hc, Hl.
Qed.

Lemma str_split_join (sep : ascii) (lines : list string) :
  lines ≠ [] →
  Forall (λ l, str_contains sep l = false) lines →
  str_split sep (str_join (String sep EmptyString) lines) = lines.
Proof.
  induction lines as [|l ls IH]; [done|]. intros _ Hall.
  inversion Hall as [|? ? Hl Hls]; subst. destruct ls as [|l' ls'].
  - cbn [str_join]. by apply str_split_no_sep.
  - change (str_join (String sep "") (l :: l' :: ls'))
      with (l +:+ String sep (str_join (String sep "") (l' :: ls'))).
    rewrite (str_split_app _ _ _ Hl). f_equal. by apply IH.
Qed.

Lemma lstrip_no_leading (s : string) :
  starts_with_space (str_lstrip s) = false.
Proof.
  induction s as [|c s IH]; [done|]. cbn [str_lstrip].
  destruct (is_space c) eqn:Hc; [done|]. cbn [starts_with_space]. done.
Qed.

Lemma rstrip_no_trailing (s : string) :
  ends_with_space (str_rstrip s) = false.
Proof.
  induction s as [|c s IH]; [done|]. cbn [str_rstrip].
  destruct (str_rstrip s) as [|d r].
  - destruct (is_space c) eqn:Hc; [done|]. cbn [ends_with_space]. done.
  - exact IH.
Qed.

Lemma rstrip_keeps_head (s : string) :
  starts_with_space s = false → starts_with_space (str_rstrip s) = false.
Proof.
  destruct s as [|c s]; [done|]. cbn [starts_with_space str_rstrip].
  intros Hc. rewrite Hc. by destruct (str_rstrip s).
Qed.

Lemma lstrip_id (s : string) :
  starts_with_space s = false → str_lstrip s = s.
Proof. destruct s as [|c s]; [done|]. cbn. by intros ->. Qed.

Lemma rstrip_id (s : string) :
  ends_with_space s = false → str_rstrip s = s.
Proof.
  induction s as [|c s IH]; [done|]. destruct s as [|d s].
  - cbn. by intros ->.
  - intros Hs. change (ends_with_space (String d s) = false) in Hs.
    cbn [str_rstrip] in *. by rewrite (IH Hs).
Qed.

Lemma strip_id (s : string) :
  starts_with_space s = false → ends_with_space s = false → str_strip s = s.
Proof.
  intros Hs He. unfold str_strip. by rewrite (lstrip_id _ Hs), (rstrip_id _ He).
Qed.

Lemma strip_no_surrounding_space (s : string) :
  starts_with_space (str_strip s) = false
  ∧ ends_with_space (str_strip s) = false.
Proof.
  unfold str_strip. split.
  - apply rstrip_keeps_head, lstrip_no_leading.
  - apply rstrip_no_trailing.
Qed.

Lemma lstrip_contains (c : ascii) (s : string) :
  str_contains c s = false → str_contains c (str_lstrip s) = false.
Proof.
  induction s as [|d s IH]; [done|]. cbn [str_lstrip].
  destruct (is_space d); [|done]. cbn [str_contains].
  intros [_ Hs]%orb_false_elim. by apply IH.
Qed.

Lemma rstrip_contains (c : ascii) (s : string) :
  str_contains c s = false → str_contains c (str_rstrip s) = false.
Proof.
  induction s as [|d s IH]; [done|]. cbn [str_contains str_rstrip].
  intros [Hd Hs]%orb_false_elim. specialize (IH Hs).
  destruct (str_rstrip s) as [|e r].
  - destruct (is_space d); [done|]. cbn [str_contains]. by rewrite Hd.
  - cbn [str_contains] in *. by rewrite Hd, IH.
Qed.

Lemma strip_contains (c : ascii) (s : string) :
  str_contains c s = false → str_contains c (str_strip s) = false.
Proof. intros Hs. by apply rstrip_contains, lstrip_contains. Qed.

Lemma filter_all {A} (P : A → Prop) `{∀ x, Decision (P x)} (l : list A) :
  Forall P l → filter P l = l.
Proof.
  induction 1 as [|x l Hx _ IH]; [done|].
  by rewrite filter_cons_True, IH.
Qed.

(** *** The registry's description *)

Lemma stored_lines (kept : list string) :
  kept ≠ [] →
  Forall (λ l, str_contains newline l = false) kept →
  str_split newline (str_join NL (str_strip <$> kept)) = str_strip <$> kept.
Proof.
  intros Hne Hall. apply str_split_join.
  - by destruct kept.
  - apply Forall_fmap. eapply Forall_impl; [exact Hall|].
    intros l Hl. by apply strip_contains.
Qed.

Lemma kept_lines_no_newline (description : string) :
  Forall (λ l, str_contains newline l = false)
    (filter (λ line, line ≠ "") (str_split newline description)).
Proof.
  apply Forall_forall. intros l [_ Hl]%list_elem_of_filter.
  pose proof (str_split_lines_no_sep newline description) as Hall.
  rewrite Forall_forall in Hall. by apply Hall.
Qed.

(** X1. No line of the description a registry stores begins or ends
    with white space, whatever description it was created with. *)
Theorem init_description_lines_stripped (name description : string)
    (version : option string) (line : string) :
  line ∈ str_split newline
           (CLI.description (CLI.__init__ name description version)) →
  starts_with_space line = false ∧ ends_with_space line = false.
Proof.
  cbn [CLI.__init__ CLI.description].
  destruct (filter (λ line, line ≠ "") (str_split newline description))
    as [|l ls] eqn:Hkept.
  - cbn. by intros ->%list_elem_of_singleton.
  - rewrite stored_lines; [|done|].
    + intros (raw & -> & _)%list_elem_of_fmap.
      apply strip_no_surrounding_space.
    + rewrite <- Hkept. apply kept_lines_no_newline.
Qed.

Lemma init_description_lines_stripped_witness :
  "A small tool" ∈ str_split newline
                     (CLI.description (CLI.__init__ "app" raw_description None))
  ∧ starts_with_space "A small tool" = false
  ∧ ends_with_space "A small tool" = false.
Proof.
  assert ("A small tool"
          ∈ str_split newline
              (CLI.description (CLI.__init__ "app" raw_description None)))
    as Hin by (vm_compute; by left).
  split; [exact Hin|].
  exact (init_description_lines_stripped "app" raw_description None _ Hin).
Defined.

(** X2. The lines of the stored description are the non-empty lines of
    the given one, each stripped, in order: an empty line is dropped,
    while a line of white space only is not empty and stays as an empty
    line. When every line of the given description is empty, the stored
    description is empty. *)
Theorem init_description_lines (name description : string)
    (version : option string) :
  (filter (λ line, line ≠ "") (str_split newline description) ≠ [] →
   str_split newline
     (CLI.description (CLI.__init__ name description version))
   = str_strip <$> filter (λ line, line ≠ "")
                     (str_split newline description))
  ∧ (filter (λ line, line ≠ "") (str_split newline description) = [] →
     CLI.description (CLI.__init__ name description version) = "").
Proof.
  cbn [CLI.__init__ CLI.description]. split.
  - intros Hne. apply stored_lines; [done|]. apply kept_lines_no_newline.
  - by intros ->.
Qed.

Lemma init_description_lines_witness :
  filter (λ line, line ≠ "") (str_split newline raw_description) ≠ []
  ∧ str_split newline
      (CLI.description (CLI.__init__ "app" raw_description None))
    = ["A small tool"; ""; "for demos"].
Proof.
  assert (filter (λ line, line ≠ "") (str_split newline raw_description) ≠ [])
    as Hne by (vm_compute; discriminate).
  split; [exact Hne|].
  rewrite (proj1 (init_description_lines "app" raw_description None) Hne).
  reflexivity.
Defined.

(** X3. A description whose lines are all non-empty and free of
    surrounding white space is stored as it is given. *)
Theorem init_description_unchanged (name description : string)
    (version : option string) :
  (∀ line, line ∈ str_split newline description →
     line ≠ "" ∧ starts_with_space line = false
     ∧ ends_with_space line = false) →
  CLI.description (CLI.__init__ name description version) = description.
Proof.
  intros Htidy. cbn [CLI.__init__ CLI.description].
  rewrite filter_all by (apply Forall_forall; intros l Hl; by apply Htidy).
  assert (str_strip <$> str_split newline description
          = str_split newline description) as ->.
  { rewrite <- (list_fmap_id (str_split newline description)) at 2.
    apply list_fmap_ext. intros i l Hl.
    destruct (Htidy l) as (_ & Hs & He);
      [by eapply list_elem_of_lookup_2|]. by apply strip_id. }
  apply str_join_split.
Qed.

Lemma init_description_unchanged_witness :
  Forall (λ line, line ≠ "" ∧ starts_with_space line = false
                  ∧ ends_with_space line = false)
    (str_split newline tidy_description)
  ∧ CLI.description (CLI.__init__ "app" tidy_description (Some "2.1"))
    = tidy_description.
Proof.
  assert (Forall (λ line, line ≠ "" ∧ starts_with_space line = false
                          ∧ ends_with_space line = false)
            (str_split newline tidy_description)) as Htidy.
  { vm_compute. repeat constructor; discriminate. }
  split; [exact Htidy|].
  apply init_description_unchanged. by apply Forall_forall.
Defined.

(** *** The parameter descriptor *)

(** X4. Deriving a parameter descriptor fails for a variable-keyword
    parameter, with the same [TypeError] whatever else the parameter
    carries, and for no other parameter. *)
Theorem init_raises_only_for_var_keyword (info : InspectParameter.t) :
  (InspectParameter.kind info = VAR_KEYWORD →
   CommandParameter.__init__ info = Raise (TypeError not_supported))
  ∧ (InspectParameter.kind info ≠ VAR_KEYWORD →
     ∃ p, CommandParameter.__init__ info = Ok p)
  ∧ (∀ e, CommandParameter.__init__ info = Raise e →
          InspectParameter.kind info = VAR_KEYWORD
          ∧ e = TypeError not_supported).
Proof.
  split_and!.
  - intros Hk. unfold CommandParameter.__init__. by rewrite Hk.
  - apply init_total.
  - intros e He. split; [|by eapply init_Raise].
    destruct (InspectParameter.kind info) eqn:Hk; [..|done];
      (destruct (init_total info) as [p Hp]; [by rewrite Hk | congruence]).
Qed.

Lemma init_raises_only_for_var_keyword_witness :
  (InspectParameter.kind (double_star "options") = VAR_KEYWORD
   ∧ CommandParameter.__init__ (double_star "options")
     = Raise (TypeError not_supported))
  ∧ (InspectParameter.kind prec_annotated ≠ VAR_KEYWORD
     ∧ ∃ p, CommandParameter.__init__ prec_annotated = Ok p).
Proof.
  split; (split; [|]).
  - reflexivity.
  - apply (proj1 (init_raises_only_for_var_keyword (double_star "options"))).
    reflexivity.
  - discriminate.
  - apply (proj1 (proj2 (init_raises_only_for_var_keyword prec_annotated))).
    discriminate.
Defined.

(** X5. For a parameter that is not variadic, the descriptor is required
    exactly when the function gives it no default; a required
    descriptor has [None] as default and an optional one the default of
    the function, whatever its annotation. *)
Theorem init_required_iff_no_default (info : InspectParameter.t)
    (p : CommandParameter.t) :
  ordinary info →
  CommandParameter.__init__ info = Ok p →
  (CommandParameter.required p = true ↔ InspectParameter.default info = None)
  ∧ (InspectParameter.default info = None →
     CommandParameter.default p = VNone)
  ∧ (∀ d, InspectParameter.default info = Some d →
          CommandParameter.required p = false
          ∧ CommandParameter.default p = d).
Proof.
  destruct info as [name k default ann]. unfold ordinary. cbn.
  intros [Hk1 Hk2]. unfold CommandParameter.__init__. cbn.
  destruct ann, default as [d|], k; try done;
    try destruct (is_not_None d); intros [= <-]; cbn;
    (split_and!; [by split | done | by intros ? [= <-]]).
Qed.

Lemma init_required_iff_no_default_witness :
  ordinary target_none
  ∧ ∃ p, CommandParameter.__init__ target_none = Ok p
         ∧ CommandParameter.required p = false
         ∧ CommandParameter.default p = VNone.
Proof.
  assert (ordinary target_none) as Hord by (split; discriminate).
  split; [exact Hord|]. eexists. split; [reflexivity|].
  apply (proj2 (proj2 (init_required_iff_no_default target_none _ Hord
                         eq_refl))).
  reflexivity.
Defined.

(** X6. An annotation object overrides the inference: the pretty name,
    the description and the choices of the descriptor are those of the
    annotation, and so is its type unless the parameter is
    variable-positional; the default of the function plays no part in
    them. *)
Theorem init_annotation_verbatim (info : InspectParameter.t)
    (a : ParameterAnnotation.t) (p : CommandParameter.t) :
  InspectParameter.annotation info = AnnParam a →
  CommandParameter.__init__ info = Ok p →
  CommandParameter.name p = InspectParameter.name info
  ∧ CommandParameter.pretty_name p = ParameterAnnotation.name a
  ∧ CommandParameter.type p
    = overridden (InspectParameter.kind info) (ParameterAnnotation.type a)
  ∧ CommandParameter.description p = ParameterAnnotation.description a
  ∧ CommandParameter.choices p = ParameterAnnotation.choices a.
Proof.
  destruct info as [name k default ann]. cbn. intros ->.
  unfold CommandParameter.__init__. cbn.
  destruct k, default; intros [= <-]; by split_and!.
Qed.

Lemma init_annotation_verbatim_witness :
  InspectParameter.annotation prec_annotated
  = AnnParam (ParameterAnnotation.mk "Precision" Tint
                "Result decimal precision" None)
  ∧ ∃ p, CommandParameter.__init__ prec_annotated = Ok p
         ∧ CommandParameter.pretty_name p = "Precision"
         ∧ CommandParameter.type p = Tint
         ∧ CommandParameter.description p = "Result decimal precision".
Proof.
  split; [reflexivity|]. eexists. split; [reflexivity|].
  destruct (init_annotation_verbatim prec_annotated _ _ eq_refl eq_refl)
    as (_ & Hpretty & Hty & Hdescr & _).
  by split_and!.
Defined.

(** X7. Without annotation object and bare type marker, a parameter
    with no default, or with [None] as default, is taken as text: the
    type is [str] and the description says so. With [None] as default
    it is optional all the same. *)
Theorem init_text_fallback (info : InspectParameter.t)
    (p : CommandParameter.t) :
  unannotated info → ordinary info →
  InspectParameter.default info = None
  ∨ InspectParameter.default info = Some VNone →
  CommandParameter.__init__ info = Ok p →
  CommandParameter.type p = Tstr
  ∧ CommandParameter.description p
    = "Parameter '" +:+ InspectParameter.name info +:+ "' of Text"
  ∧ CommandParameter.choices p = None
  ∧ CommandParameter.required p
    = match InspectParameter.default info with
      | Some _ => false
      | None => true
      end.
Proof.
  destruct info as [name k default ann]. unfold unannotated, ordinary. cbn.
  intros Hann [Hk1 Hk2] [-> | ->]; unfold CommandParameter.__init__; cbn;
    destruct ann, k; try done; intros [= <-]; by split_and!.
Qed.

Lemma init_text_fallback_witness :
  unannotated target_none ∧ ordinary target_none
  ∧ InspectParameter.default target_none = Some VNone
  ∧ ∃ p, CommandParameter.__init__ target_none = Ok p
         ∧ CommandParameter.type p = Tstr
         ∧ CommandParameter.description p = "Parameter 'target' of Text"
         ∧ CommandParameter.required p = false.
Proof.
  assert (ordinary target_none) as Hord by (split; discriminate).
  split_and!; [exact I | exact Hord | reflexivity |].
  eexists. split; [reflexivity|].
  destruct (init_text_fallback target_none _ I Hord (or_intror eq_refl)
              eq_refl) as (Hty & Hdescr & _ & Hreq).
  by split_and!.
Defined.



(** *** The command descriptor *)

Lemma str_contains_app (c : ascii) (a b : string) :
  str_contains c (a +:+ b) = str_contains c a || str_contains c b.
Proof.
  induction a as [|d a IH]; [done|].
  change (str_contains c (String d a +:+ b))
    with (Ascii.eqb d c || str_contains c (a +:+ b)).
  rewrite IH. cbn [str_contains]. by rewrite orb_assoc.
Qed.

(** X9. The parameters of a command are derived exactly when no formal
    parameter is variable-keyword, and then there is one descriptor per
    formal parameter, under the same name and in declaration order. *)
Theorem parameters_follow_signature (self : Command.t) :
  ((∀ info, info ∈ Function.signature (Command.func self) →
      InspectParameter.kind info ≠ VAR_KEYWORD) →
   ∃ ps, Command.parameters self = Ok ps)
  ∧ (∀ ps, Command.parameters self = Ok ps →
       CommandParameter.name <$> ps
       = InspectParameter.name <$> Function.signature (Command.func self)
       ∧ length ps = length (Function.signature (Command.func self))
       ∧ ∀ info, info ∈ Function.signature (Command.func self) →
                 InspectParameter.kind info ≠ VAR_KEYWORD).
Proof.
  split.
  - intros Hsig. apply for_each_total. intros info Hin.
    apply init_total. by apply Hsig.
  - intros ps Hps. split_and!.
    + by apply parameters_names.
    + symmetry. eapply Forall2_length, for_each_Ok. exact Hps.
    + intros info Hin Hk.
      rewrite (parameters_var_keyword self info Hin Hk) in Hps. done.
Qed.

Lemma parameters_follow_signature_witness :
  Forall (λ info, InspectParameter.kind info ≠ VAR_KEYWORD)
    (Function.signature f_abc_rest)
  ∧ ∃ ps, Command.parameters (Command.mk "f" f_abc_rest) = Ok ps
          ∧ CommandParameter.name <$> ps = ["a"; "b"; "c"; "rest"].
Proof.
  assert (Forall (λ info, InspectParameter.kind info ≠ VAR_KEYWORD)
            (Function.signature f_abc_rest)) as Hsig
    by (repeat constructor; discriminate).
  split; [exact Hsig|].
  destruct (proj1 (parameters_follow_signature (Command.mk "f" f_abc_rest)))
    as [ps Hps]; [by apply Forall_forall|].
  exists ps. split; [exact Hps|].
  by rewrite (proj1 (proj2 (parameters_follow_signature
                              (Command.mk "f" f_abc_rest)) ps Hps)).
Defined.

(** X10. The short description of a command is always a single line,
    whatever help text the function carries, as long as the command's
    name is a single line. *)
Theorem description_is_one_line (self : Command.t) :
  str_contains newline (Command.name self) = false →
  str_contains newline (Command.description self) = false.
Proof.
  intros Hname. unfold Command.description, Command._docstring.
  set (docstring := match Function.getdoc (Command.func self) with
                    | Some doc => if String.eqb doc "" then Command.name self
                                  else doc
                    | None => Command.name self
                    end).
  pose proof (str_split_lines_no_sep newline docstring) as Hall.
  pose proof (str_join_split newline docstring) as Hjoin.
  destruct (str_split newline docstring) as [|first [|second rest]];
    cbn [fst].
  - by rewrite <- Hjoin.
  - cbn [str_join] in Hjoin. rewrite <- Hjoin.
    by inversion Hall.
  - destruct (String.eqb second ""); cbn [fst].
    + by inversion Hall.
    + rewrite str_contains_app. by rewrite Hname.
Qed.

Lemma description_is_one_line_witness :
  str_contains newline "copy" = false
  ∧ Command.description (Command.mk "copy" plain_help) = "Command copy"
  ∧ str_contains newline
      (Command.description (Command.mk "copy" plain_help)) = false.
Proof.
  split_and!; [reflexivity | reflexivity |].
  apply (description_is_one_line (Command.mk "copy" plain_help)).
  reflexivity.
Defined.

(** X11. No part of a non-empty help text is lost: either the
    documentation is the whole text (under the generic description), or
    the text is the description alone, or the description followed by a
    newline, or the description, a blank line and the documentation. *)
Theorem docstring_reassembles (name text : string) (func : Function.t) :
  Function.getdoc func = Some text → text ≠ "" →
  (Command.description (Command.mk name func) = "Command " +:+ name
   ∧ Command.documentation (Command.mk name func) = text)
  ∨ (Command.documentation (Command.mk name func) = ""
     ∧ (text = Command.description (Command.mk name func)
        ∨ text = Command.description (Command.mk name func) +:+ NL))
  ∨ text = Command.description (Command.mk name func) +:+ NL +:+ NL
           +:+ Command.documentation (Command.mk name func).
Proof.
  intros Hdoc Hne. unfold Command.description, Command.documentation.
  rewrite (docstring_of_text _ _ _ Hdoc Hne).
  pose proof (str_join_split newline text) as Hjoin.
  destruct (str_split newline text) as [|first [|second rest]];
    cbn [fst snd].
  - right. left. split; [done|]. by left.
  - right. left. split; [done|]. by left.
  - destruct (String.eqb_spec second "") as [-> | Hsecond]; cbn [fst snd].
    + destruct rest as [|third rest].
      * right. left. split; [done|]. right. by rewrite <- Hjoin.
      * right. right. by rewrite <- Hjoin.
    + by left.
Qed.

Lemma docstring_reassembles_witness :
  Function.getdoc echo = Some echo_doc ∧ echo_doc ≠ ""
  ∧ echo_doc = Command.description (Command.mk "echo" echo) +:+ NL +:+ NL
               +:+ Command.documentation (Command.mk "echo" echo).
Proof.
  split_and!; [reflexivity | discriminate |].
  destruct (docstring_reassembles "echo" echo_doc echo eq_refl)
    as [[Hd _] | [[Hd _] | H]]; [discriminate | | | exact H].
  - vm_compute in Hd. discriminate Hd.
  - vm_compute in Hd. discriminate Hd.
Defined.

(** *** Errors of the reconstruction *)

Lemma getitem_Raise {A} (params : gmap string A) (name : string) (e : exn) :
  getitem params name = Raise e → params !! name = None ∧ e = KeyError name.
Proof. unfold getitem. destruct (params !! name); [done|]. by intros [= <-]. Qed.

Lemma getitem_Ok {A} (params : gmap string A) (name : string) (v : A) :
  getitem params name = Ok v → params !! name = Some v.
Proof. unfold getitem. destruct (params !! name); [|done]. by intros [= <-]. Qed.

Lemma iter_Raise (v : value) (e : exn) :
  iter v = Raise e → ∃ msg, e = TypeError msg.
Proof. destruct v; cbn; try done; intros [= <-]; by eexists. Qed.

(** What an error of one of the three passes can be. *)
Lemma required_args_Raise (params : gmap string value)
    (ps : list CommandParameter.t) (e : exn) :
  Command.required_args params ps = Raise e →
  ∃ q, q ∈ ps ∧ params !! CommandParameter.name q = None
       ∧ e = KeyError (CommandParameter.name q).
Proof.
  induction ps as [|p ps IH]; [done|]. cbn [Command.required_args].
  destruct (CommandParameter.required p).
  - destruct (getitem params _) as [v|e'] eqn:Hget; cbn [bind].
    + destruct (Command.required_args params ps) as [vs|e'']; [done|].
      cbn [bind]. intros [= <-].
      destruct (IH eq_refl) as (q & Hq & Hnone & ->).
      exists q. split_and!; [by right | done | done].
    + intros [= <-]. apply getitem_Raise in Hget as [Hnone ->].
      exists p. split_and!; [by left | done | done].
  - intros He. destruct (IH He) as (q & Hq & Hnone & ->).
    exists q. split_and!; [by right | done | done].
Qed.

Lemma optional_kwargs_Raise (params : gmap string value)
    (ps : list CommandParameter.t) (kwargs : gmap string value) (e : exn) :
  Command.optional_kwargs params ps kwargs = Raise e →
  ∃ q, q ∈ ps ∧ params !! CommandParameter.name q = None
       ∧ e = KeyError (CommandParameter.name q).
Proof.
  revert kwargs. induction ps as [|p ps IH]; [done|]. intros kwargs.
  cbn [Command.optional_kwargs]. destruct (_ && _).
  - destruct (getitem params _) as [v|e'] eqn:Hget; cbn [bind].
    + intros He. destruct (IH _ He) as (q & Hq & Hnone & ->).
      exists q. split_and!; [by right | done | done].
    + intros [= <-]. apply getitem_Raise in Hget as [Hnone ->].
      exists p. split_and!; [by left | done | done].
  - intros He. destruct (IH _ He) as (q & Hq & Hnone & ->).
    exists q. split_and!; [by right | done | done].
Qed.

Lemma extend_varargs_Raise (params : gmap string value)
    (ps : list CommandParameter.t) (args : list value) (e : exn) :
  Command.extend_varargs params ps args = Raise e →
  (∃ q, q ∈ ps ∧ params !! CommandParameter.name q = None
        ∧ e = KeyError (CommandParameter.name q))
  ∨ (∃ q v msg, q ∈ ps ∧ is_variadic q
                ∧ params !! CommandParameter.name q = Some v
                ∧ ¬ is_sequence v ∧ e = TypeError msg).
Proof.
  revert args. induction ps as [|p ps IH]; [done|]. intros args.
  cbn [Command.extend_varargs].
  assert (∀ args', Command.extend_varargs params ps args' = Raise e →
            (∃ q, q ∈ p :: ps ∧ params !! CommandParameter.name q = None
                  ∧ e = KeyError (CommandParameter.name q))
            ∨ (∃ q v msg, q ∈ p :: ps ∧ is_variadic q
                          ∧ params !! CommandParameter.name q = Some v
                          ∧ ¬ is_sequence v ∧ e = TypeError msg)) as Htail.
  { intros args' He. destruct (IH _ He) as [(q & Hq & H) | (q & v & msg & Hq & H)].
    - left. exists q. split; [by right | done].
    - right. exists q, v, msg. split; [by right | done]. }
  destruct (is_VarArgs (CommandParameter.type p)) eqn:Hvar; [|by apply Htail].
  destruct (getitem params _) as [v|e'] eqn:Hget; cbn [bind].
  - apply getitem_Ok in Hget. destruct (iter v) as [l|e'] eqn:Hiter; cbn [bind].
    + by apply Htail.
    + intros [= <-]. destruct (iter_Raise _ _ Hiter) as [msg ->].
      right. exists p, v, msg. split_and!; try done; [by left | |].
      * by apply is_VarArgs_true.
      * intros [l Hl]. congruence.
  - intros [= <-]. apply getitem_Raise in Hget as [Hnone ->].
    left. exists p. split_and!; [by left | done | done].
Qed.

(** X12. The reconstruction can fail in two ways only: with a
    [KeyError] that names a declared parameter for which the mapping has
    no entry, or with a [TypeError] for a variadic parameter whose entry
    is not a sequence. *)
Theorem split_parameters_errors (self : Command.t)
    (ps : list CommandParameter.t) (params : gmap string value) (e : exn) :
  Command.parameters self = Ok ps →
  Command.split_parameters self params = Raise e →
  (∃ q, q ∈ ps ∧ params !! CommandParameter.name q = None
        ∧ e = KeyError (CommandParameter.name q))
  ∨ (∃ q v msg, q ∈ ps ∧ is_variadic q
                ∧ params !! CommandParameter.name q = Some v
                ∧ ¬ is_sequence v ∧ e = TypeError msg).
Proof.
  intros Hps. unfold Command.split_parameters. rewrite Hps. cbn [bind].
  destruct (Command.required_args params ps) as [args|e1] eqn:Hreq;
    cbn [bind].
  - destruct (Command.optional_kwargs params ps ∅) as [kwargs|e2] eqn:Hkw;
      cbn [bind].
    + destruct (Command.extend_varargs params ps args) as [args'|e3] eqn:Hext;
        cbn [bind]; [done|].
      intros [= <-]. by eapply extend_varargs_Raise.
    + intros [= <-]. left. by eapply optional_kwargs_Raise.
  - intros [= <-]. left. by eapply required_args_Raise.
Qed.

Lemma split_parameters_errors_witness :
  Command.parameters (Command.mk "f" f_abc_rest) = Ok ps_abc_rest
  ∧ Command.split_parameters (Command.mk "f" f_abc_rest) mapping_ab_rest
    = Raise (KeyError "c")
  ∧ ((∃ q, q ∈ ps_abc_rest
           ∧ mapping_ab_rest !! CommandParameter.name q = None
           ∧ KeyError "c" = KeyError (CommandParameter.name q))
     ∨ (∃ q v msg, q ∈ ps_abc_rest ∧ is_variadic q
                   ∧ mapping_ab_rest !! CommandParameter.name q = Some v
                   ∧ ¬ is_sequence v ∧ KeyError "c" = TypeError msg)).
Proof.
  assert (Command.split_parameters (Command.mk "f" f_abc_rest) mapping_ab_rest
          = Raise (KeyError "c")) as Hrun by (by vm_compute).
  split_and!; [reflexivity | exact Hrun |].
  exact (split_parameters_errors (Command.mk "f" f_abc_rest) ps_abc_rest
           mapping_ab_rest (KeyError "c") eq_refl Hrun).
Defined.

Lemma required_args_Ok (params : gmap string value)
    (ps : list CommandParameter.t) (vs : list value) :
  Command.required_args params ps = Ok vs →
  ∀ q, q ∈ ps → is_required q →
       is_Some (params !! CommandParameter.name q).
Proof.
  revert vs. induction ps as [|p ps IH]; intros vs.
  { intros _ q Hq. by apply elem_of_nil in Hq. }
  cbn [Command.required_args].
  destruct (CommandParameter.required p) eqn:Hreq.
  - destruct (getitem params _) as [v|] eqn:Hget; [|done]. cbn [bind].
    destruct (Command.required_args params ps) as [vs'|]; [|done].
    intros _ q [-> | Hq]%elem_of_cons Hrq.
    + apply getitem_Ok in Hget. by eexists.
    + by eapply IH.
  - intros Hrun q [-> | Hq]%elem_of_cons Hrq.
    + unfold is_required in Hrq. congruence.
    + by eapply IH.
Qed.

Lemma optional_kwargs_Ok (params : gmap string value)
    (ps : list CommandParameter.t) (kwargs kwargs' : gmap string value) :
  Command.optional_kwargs params ps kwargs = Ok kwargs' →
  ∀ q, q ∈ ps → is_keyword q →
       is_Some (params !! CommandParameter.name q).
Proof.
  revert kwargs. induction ps as [|p ps IH]; intros kwargs.
  { intros _ q Hq. by apply elem_of_nil in Hq. }
  cbn [Command.optional_kwargs].
  destruct (negb (CommandParameter.required p)
            && negb (is_VarArgs (CommandParameter.type p))) eqn:Hkw.
  - destruct (getitem params _) as [v|] eqn:Hget; [|done]. cbn [bind].
    intros Hrun q [-> | Hq]%elem_of_cons Hkq.
    + apply getitem_Ok in Hget. by eexists.
    + by eapply IH.
  - intros Hrun q [-> | Hq]%elem_of_cons Hkq.
    + destruct Hkq as [Hr Ht]. apply is_VarArgs_false in Ht.
      rewrite Hr, Ht in Hkw. done.
    + by eapply IH.
Qed.

Lemma extend_varargs_Ok (params : gmap string value)
    (ps : list CommandParameter.t) (args args' : list value) :
  Command.extend_varargs params ps args = Ok args' →
  ∀ q, q ∈ ps → is_variadic q →
       ∃ v, params !! CommandParameter.name q = Some v ∧ is_sequence v.
Proof.
  revert args. induction ps as [|p ps IH]; intros args.
  { intros _ q Hq. by apply elem_of_nil in Hq. }
  cbn [Command.extend_varargs].
  destruct (is_VarArgs (CommandParameter.type p)) eqn:Hvar.
  - destruct (getitem params _) as [v|] eqn:Hget; [|done]. cbn [bind].
    destruct (iter v) as [l|] eqn:Hiter; [|done]. cbn [bind].
    intros Hrun q [-> | Hq]%elem_of_cons Hvq.
    + apply getitem_Ok in Hget. exists v. split; [done|]. by exists l.
    + by eapply IH.
  - intros Hrun q [-> | Hq]%elem_of_cons Hvq.
    + apply is_VarArgs_true in Hvq. congruence.
    + by eapply IH.
Qed.

Lemma split_parameters_Ok_entries (self : Command.t)
    (ps : list CommandParameter.t) (params : gmap string value)
    (r : list value * gmap string value) :
  Command.parameters self = Ok ps →
  Command.split_parameters self params = Ok r →
  (∀ q, q ∈ ps → is_Some (params !! CommandParameter.name q))
  ∧ (∀ q, q ∈ ps → is_variadic q →
          is_sequence (params !!! CommandParameter.name q)).
Proof.
  intros Hps. unfold Command.split_parameters. rewrite Hps. cbn [bind].
  intros Hrun.
  destruct (Command.required_args params ps) as [args|] eqn:Hreq; [|done].
  cbn [bind] in Hrun.
  destruct (Command.optional_kwargs params ps ∅) as [kwargs|] eqn:Hkw;
    [|done].
  cbn [bind] in Hrun.
  destruct (Command.extend_varargs params ps args) as [args'|] eqn:Hext;
    [|done].
  split.
  - intros q Hq. destruct (decide (is_required q)) as [Hr|Hr].
    { by eapply required_args_Ok. }
    destruct (decide (is_variadic q)) as [Hv|Hv].
    { destruct (extend_varargs_Ok _ _ _ _ Hext q Hq Hv) as (v & -> & _).
      by eexists. }
    eapply optional_kwargs_Ok; [done..|]. split; [|done].
    unfold is_required in Hr. by destruct (CommandParameter.required q).
  - intros q Hq Hv.
    destruct (extend_varargs_Ok _ _ _ _ Hext q Hq Hv) as (v & Hv' & Hseq).
    by rewrite (lookup_total_correct _ _ _ Hv').
Qed.

(** X13. The reconstruction succeeds exactly when the mapping has an
    entry for every declared parameter and the entry of each variadic
    parameter is a sequence: a missing entry is never replaced by the
    parameter's default. *)
Theorem split_parameters_succeeds_iff (self : Command.t)
    (ps : list CommandParameter.t) (params : gmap string value) :
  Command.parameters self = Ok ps →
  (∃ r, Command.split_parameters self params = Ok r)
  ↔ (∀ q, q ∈ ps → is_Some (params !! CommandParameter.name q))
    ∧ (∀ q, q ∈ ps → is_variadic q →
            is_sequence (params !!! CommandParameter.name q)).
Proof.
  intros Hps. split.
  - intros [r Hrun]. by eapply split_parameters_Ok_entries.
  - intros [Hin Hseq]. unfold Command.split_parameters. rewrite Hps.
    cbn [bind]. rewrite (required_args_spec _ _ Hin). cbn [bind].
    destruct (optional_kwargs_spec params ps ∅ Hin) as (kwargs & -> & _).
    cbn [bind]. rewrite (extend_varargs_spec _ _ _ Hin Hseq). cbn [bind].
    by eexists.
Qed.

Lemma split_parameters_succeeds_iff_witness :
  Command.parameters (Command.mk "f" f_abc_rest) = Ok ps_abc_rest
  ∧ (∃ r, Command.split_parameters (Command.mk "f" f_abc_rest)
            mapping_abc_rest = Ok r)
  ∧ ∀ q, q ∈ ps_abc_rest →
         is_Some (mapping_abc_rest !! CommandParameter.name q).
Proof.
  assert (∃ r, Command.split_parameters (Command.mk "f" f_abc_rest)
                 mapping_abc_rest = Ok r) as Hrun
    by (eexists; by vm_compute).
  split_and!; [reflexivity | exact Hrun |].
  exact (proj1 (proj1 (split_parameters_succeeds_iff
                         (Command.mk "f" f_abc_rest) ps_abc_rest
                         mapping_abc_rest eq_refl) Hrun)).
Defined.

(** *** Registration *)

Lemma dict_get_set_ne {A} (k k' : string) (v : A) (d : list (string * A)) :
  k' ≠ k → dict_get k' (dict_set k v d) = dict_get k' d.
Proof.
  intros Hne. induction d as [|[k0 v0] d IH]; cbn [dict_set dict_get].
  - by destruct (String.eqb_spec k k') as [-> | _].
  - destruct (String.eqb_spec k0 k) as [-> | Hk0]; cbn [dict_get].
    + by destruct (String.eqb_spec k k') as [-> | _].
    + by rewrite IH.
Qed.

Lemma dict_get_elem {A} (k : string) (v : A) (d : list (string * A)) :
  dict_get k d = Some v → (k, v) ∈ d.
Proof.
  induction d as [|[k0 v0] d IH]; cbn [dict_get]; [done|].
  destruct (String.eqb_spec k0 k) as [-> | Hk0].
  - intros [= ->]. by left.
  - intros Hv. right. by apply IH.
Qed.

Lemma dict_set_elem {A} (k k' : string) (v v' : A) (d : list (string * A)) :
  (k', v') ∈ dict_set k v d → (k', v') = (k, v) ∨ (k', v') ∈ d.
Proof.
  induction d as [|[k0 v0] d IH]; cbn [dict_set].
  - intros ->%list_elem_of_singleton. by left.
  - destruct (String.eqb k0 k).
    + intros [-> | Hin]%elem_of_cons; [by left|]. right. by right.
    + intros [-> | Hin]%elem_of_cons; [right; by left|].
      destruct (IH Hin) as [-> | Hd]; [by left|]. right. by right.
Qed.

Lemma dict_set_keys {A} (k : string) (v : A) (d : list (string * A)) :
  fst <$> dict_set k v d
  = if bool_decide (k ∈ fst <$> d) then fst <$> d else (fst <$> d) ++ [k].
Proof.
  induction d as [|[k0 v0] d IH]; cbn [dict_set fmap list_fmap fst].
  - by rewrite bool_decide_eq_false_2 by (by intros ?%elem_of_nil).
  - destruct (String.eqb_spec k0 k) as [-> | Hk0]; cbn [fmap list_fmap fst].
    + by rewrite bool_decide_eq_true_2 by (by left).
    + change (list_fmap _ _ fst ?l) with (fst <$> l) in *. rewrite IH.
      destruct (bool_decide (k ∈ fst <$> d)) eqn:Hin.
      * apply bool_decide_eq_true_1 in Hin.
        by rewrite bool_decide_eq_true_2 by (by right).
      * apply bool_decide_eq_false_1 in Hin.
        rewrite bool_decide_eq_false_2; [done|].
        by intros [?|?]%elem_of_cons.
Qed.

Lemma str_replace_removes (a b : ascii) (s : string) :
  a ≠ b → str_contains a (str_replace a b s) = false.
Proof.
  intros Hab. induction s as [|c s IH]; [done|].
  cbn [str_replace str_contains]. rewrite IH, orb_false_r.
  destruct (Ascii.eqb_spec c a) as [-> | Hca].
  - apply Ascii.eqb_neq. by apply not_eq_sym.
  - by apply Ascii.eqb_neq.
Qed.

(** X14. Registration never fails. It stores the command under the
    dash-cased name of the function, where a lookup finds it, replaces
    a command already stored under that name without adding an entry,
    and leaves every other entry, and the name, description and version
    of the registry, as they were. *)
Theorem command_stores_and_replaces (self : CLI.t) (func : Function.t) :
  ∃ self',
    CLI.command self func
    = Ok (self', Command.mk (str_replace "_" "-" (Function.__name__ func)) func)
    ∧ dict_get (str_replace "_" "-" (Function.__name__ func))
        (CLI.commands self')
      = Some (Command.mk (str_replace "_" "-" (Function.__name__ func)) func)
    ∧ (∀ k, k ≠ str_replace "_" "-" (Function.__name__ func) →
            dict_get k (CLI.commands self') = dict_get k (CLI.commands self))
    ∧ length (CLI.commands self')
      = (if dict_get (str_replace "_" "-" (Function.__name__ func))
              (CLI.commands self)
         is Some _ then length (CLI.commands self)
         else S (length (CLI.commands self)))
    ∧ CLI.name self' = CLI.name self
    ∧ CLI.description self' = CLI.description self
    ∧ CLI.version self' = CLI.version self.
Proof.
  unfold CLI.command. rewrite dict_get_set. eexists. split; [done|].
  cbn [CLI.commands CLI.name CLI.description CLI.version].
  split_and!; try done.
  - apply dict_get_set.
  - intros k Hk. by apply dict_get_set_ne.
  - generalize (str_replace "_" "-" (Function.__name__ func)) as k.
    generalize (CLI.commands self) as d. intros d k.
    induction d as [|[k0 c0] d IH]; [done|]. cbn [dict_set dict_get].
    destruct (String.eqb k0 k); [done|]. cbn [length]. rewrite IH.
    by destruct (dict_get k d).
Qed.

Lemma command_stores_and_replaces_witness :
  dict_get "answer" (CLI.commands cli_answer)
  = Some (Command.mk "answer" answer)
  ∧ ∃ self',
      CLI.command cli_answer answer_43
      = Ok (self', Command.mk "answer" answer_43)
      ∧ dict_get "answer" (CLI.commands self')
        = Some (Command.mk "answer" answer_43)
      ∧ length (CLI.commands self') = 1.
Proof.
  split; [reflexivity|].
  destruct (command_stores_and_replaces cli_answer answer_43)
    as (self' & Hreg & Hget & _ & Hlen & _).
  exists self'. by split_and!.
Defined.

(** X15. The [commands] dict of a registry keeps its invariant under
    registration: every key occurs once, is the name of the command
    stored under it and holds no underscore. The empty registry has
    it. *)
Theorem command_keeps_registered (self self' : CLI.t) (func : Function.t)
    (stored : Command.t) :
  registered (CLI.commands self) →
  CLI.command self func = Ok (self', stored) →
  registered (CLI.commands self').
Proof.
  intros [Hnodup Hkeys]. unfold CLI.command. rewrite dict_get_set.
  intros [= <- _]. cbn [CLI.commands]. split.
  - rewrite dict_set_keys. case_bool_decide as Hin; [done|].
    apply NoDup_app. split_and!; [done | | apply NoDup_singleton].
    intros k Hk ->%list_elem_of_singleton. done.
  - intros k c [[= -> ->] | Hin]%dict_set_elem.
    + split; [done|]. by apply str_replace_removes.
    + by apply Hkeys.
Qed.

Lemma command_keeps_registered_witness :
  registered (CLI.commands empty_cli)
  ∧ CLI.command empty_cli do_it = Ok (cli_do_it, Command.mk "do-it" do_it)
  ∧ registered (CLI.commands cli_do_it).
Proof.
  assert (registered (CLI.commands empty_cli)) as Hempty.
  { split; [constructor|]. intros k c Hin. by apply elem_of_nil in Hin. }
  split_and!; [exact Hempty | reflexivity |].
  exact (command_keeps_registered empty_cli cli_do_it do_it _ Hempty eq_refl).
Defined.

(** X16. In a registry filled by registration, a token that holds an
    underscore names no command: a function is reached under its
    dash-cased name only. *)
Theorem underscore_token_matches_nothing
    (commands : list (string * Command.t)) (token : string) :
  registered commands →
  str_contains "_" token = true →
  dict_get token commands = None.
Proof.
  intros [_ Hkeys] Htoken.
  destruct (dict_get token commands) as [c|] eqn:Hget; [|done].
  apply dict_get_elem in Hget. destruct (Hkeys _ _ Hget) as [_ Hk].
  congruence.
Qed.

Lemma underscore_token_matches_nothing_witness :
  registered (CLI.commands cli_do_it)
  ∧ str_contains "_" "do_it" = true
  ∧ dict_get "do_it" (CLI.commands cli_do_it) = None.
Proof.
  assert (registered (CLI.commands cli_do_it)) as Hreg.
  { split.
    - apply NoDup_singleton.
    - intros k c Hin. apply list_elem_of_singleton in Hin.
      injection Hin as -> ->. by split. }
  split_and!; [exact Hreg | reflexivity |].
  by apply underscore_token_matches_nothing.
Defined.

(** *** The parser the registry describes *)




(** *** What a dispatch does *)





(** X20. Registration and dispatch compose: once a function is
    registered, a dispatch whose first token is its dash-cased name
    calls that function and no other (a function registered earlier
    under the same name is not reached), with the arguments
    reconstructed for it from the parsed mapping. *)
Theorem registered_function_is_dispatched
    (parse_args : argparse.parser → list string → result (gmap string value))
    (self self' : CLI.t) (func : Function.t) (stored : Command.t)
    (rest : list string) (argns : gmap string value) (args : list value)
    (kwargs : gmap string value) (tr : list event) :
  CLI.command self func = Ok (self', stored) →
  CLI.parse parse_args self' (Command.name stored :: rest) = Ok argns →
  Command.split_parameters stored argns = Ok (args, kwargs) →
  Command.name stored = str_replace "_" "-" (Function.__name__ func)
  ∧ CLI.run parse_args self' (Command.name stored :: rest) tr
    = (match Function.body func args kwargs with
       | Ok _ => Ok VNone
       | Raise e => Raise e
       end,
       tr ++ [call (Command.name stored) args kwargs]).
Proof.
  unfold CLI.command. rewrite dict_get_set. intros [= <- <-].
  cbn [Command.name]. intros Hparse Hsplit. split; [done|].
  unfold CLI.run, bindM, lift. rewrite Hparse. cbn [CLI.commands].
  rewrite dict_get_set, Hsplit.
  unfold Command.__call__, bindM, emit, lift, ret. cbn [Command.func Command.name].
  by destruct (Function.body func args kwargs).
Qed.

Lemma registered_function_is_dispatched_witness :
  ∃ self',
    CLI.command cli_answer answer_43
    = Ok (self', Command.mk "answer" answer_43)
    ∧ CLI.parse (answering {["version" := VBool false]}) self' ["answer"]
      = Ok {["version" := VBool false]}
    ∧ Command.split_parameters (Command.mk "answer" answer_43)
        {["version" := VBool false]}
      = Ok ([], ∅)
    ∧ Function.body answer_43 [] ∅ = Ok (VInt 43)
    ∧ CLI.run (answering {["version" := VBool false]}) self' ["answer"] []
      = (Ok VNone, [call "answer" [] ∅]).
Proof.
  eexists. split; [reflexivity|].
  split_and!; [reflexivity | reflexivity | reflexivity |].
  apply (registered_function_is_dispatched
           (answering {["version" := VBool false]}) cli_answer _ answer_43
           (Command.mk "answer" answer_43) [] {["version" := VBool false]}
           [] ∅ [] eq_refl eq_refl eq_refl).
Defined.

(** *** From the signature to the parser *)

(** X21. A parameter declared without annotation and with [True] or
    [False] as default becomes an optional Boolean descriptor with that
    default, and reaches the parser as a switch [--name] that stores
    the opposite of the default when it is given. *)
Theorem boolean_default_becomes_switch (info : InspectParameter.t) (b : bool) :
  unannotated info → ordinary info →
  InspectParameter.default info = Some (VBool b) →
  ∃ p, CommandParameter.__init__ info = Ok p
       ∧ CommandParameter.type p = Tbool
       ∧ CommandParameter.required p = false
       ∧ CommandParameter.default p = VBool b
       ∧ CLI.add_argument p
         = argparse.mk_argument
             ["--" +:+ InspectParameter.name info] None
             ("Parameter '" +:+ InspectParameter.name info +:+ "' of Boolean")
             None (Some false) None None
             (if b then argparse.store_false else argparse.store_true)
       ∧ argparse.when_present (argparse.arg_action (CLI.add_argument p))
         = Some (negb b).
Proof.
  destruct info as [name k default ann]. unfold unannotated, ordinary. cbn.
  intros Hann [Hk1 Hk2] ->. unfold CommandParameter.__init__. cbn.
  destruct ann, k; try done; eexists; (split; [reflexivity|]);
    cbn; by destruct b.
Qed.

Lemma boolean_default_becomes_switch_witness :
  unannotated (with_default "cap" (VBool false))
  ∧ ordinary (with_default "cap" (VBool false))
  ∧ ∃ p, CommandParameter.__init__ (with_default "cap" (VBool false)) = Ok p
         ∧ argparse.flags (CLI.add_argument p) = ["--cap"]
         ∧ argparse.arg_action (CLI.add_argument p) = argparse.store_true.
Proof.
  assert (ordinary (with_default "cap" (VBool false))) as Hord
    by (split; discriminate).
  split_and!; [exact I | exact Hord |].
  destruct (boolean_default_becomes_switch (with_default "cap" (VBool false))
              false I Hord eq_refl) as (p & Hp & _ & _ & _ & Harg & _).
  exists p. split; [exact Hp|]. by rewrite Harg.
Defined.

(** X22. The parser entry of a variable-positional parameter is a
    positional that takes any number of tokens, with no type and no
    choices: a type or a list of choices given by its annotation does
    not reach the parser. *)
Theorem variadic_entry_has_no_type (info : InspectParameter.t)
    (p : CommandParameter.t) :
  InspectParameter.kind info = VAR_POSITIONAL →
  CommandParameter.__init__ info = Ok p →
  CLI.add_argument p
  = argparse.mk_argument [InspectParameter.name info] None
      (CommandParameter.description p) (Some "*") None None None
      argparse.store.
Proof.
  intros Hk Hp. destruct (init_var_positional info Hk)
    as (q & Hq & Hname & Hty & _).
  rewrite Hp in Hq. injection Hq as <-.
  unfold CLI.add_argument. by rewrite Hty, Hname.
Qed.

Lemma variadic_entry_has_no_type_witness :
  InspectParameter.kind values_annotated = VAR_POSITIONAL
  ∧ ∃ p, CommandParameter.__init__ values_annotated = Ok p
         ∧ CommandParameter.choices p = Some [VInt 1; VInt 2]
         ∧ argparse.arg_type (CLI.add_argument p) = None
         ∧ argparse.arg_choices (CLI.add_argument p) = None
         ∧ argparse.arg_nargs (CLI.add_argument p) = Some "*".
Proof.
  split; [reflexivity|]. eexists. split; [reflexivity|].
  split; [reflexivity|].
  by rewrite (variadic_entry_has_no_type values_annotated _ eq_refl eq_refl).
Defined.

(** X23. For a parameter that is not variadic (and is not given the
    marker type), the presence of a default decides how it reaches the
    parser: without default it is a positional under its own name, with
    a default it is an option [--name] that is not required. *)
Theorem default_decides_option (info : InspectParameter.t)
    (p : CommandParameter.t) :
  ordinary info → ¬ declares_VarArgs info →
  CommandParameter.__init__ info = Ok p →
  argparse.flags (CLI.add_argument p)
  = match InspectParameter.default info with
    | None => [InspectParameter.name info]
    | Some _ => ["--" +:+ InspectParameter.name info]
    end
  ∧ argparse.arg_required (CLI.add_argument p)
    = match InspectParameter.default info with
      | None => None
      | Some _ => Some false
      end.
Proof.
  intros Hord Hdecl Hp.
  pose proof (init_ordinary_type info p Hord Hdecl Hp) as Hty.
  apply is_VarArgs_false in Hty.
  pose proof (init_name info p Hp) as Hname.
  assert (CommandParameter.required p
          = match InspectParameter.default info with
            | None => true
            | Some _ => false
            end) as Hreq.
  { destruct info as [name k default ann]. destruct Hord as [Hk1 Hk2].
    unfold CommandParameter.__init__ in Hp. cbn in *.
    destruct ann, default as [d|], k; try done;
      try destruct (is_not_None d); by injection Hp as <-. }
  unfold CLI.add_argument. rewrite Hty, Hreq, Hname.
  destruct (InspectParameter.default info); [|done].
  by destruct (is_bool (CommandParameter.type p)).
Qed.

Lemma default_decides_option_witness :
  ordinary prec_annotated ∧ ¬ declares_VarArgs prec_annotated
  ∧ ∃ p, CommandParameter.__init__ prec_annotated = Ok p
         ∧ argparse.flags (CLI.add_argument p) = ["--prec"]
         ∧ argparse.arg_required (CLI.add_argument p) = Some false.
Proof.
  assert (ordinary prec_annotated) as Hord by (split; discriminate).
  assert (¬ declares_VarArgs prec_annotated) as Hdecl by discriminate.
  split_and!; [exact Hord | exact Hdecl |].
  eexists. split; [reflexivity|].
  exact (default_decides_option prec_annotated _ Hord Hdecl eq_refl).
Defined.
